(** * Langton's ant: a shallow embedding of [langtons_ant.py]

    The development follows the Python module top-down: the two value
    classes [Point] and [Direction], the four direction constants, the
    class [LangtonsAnt] with its constructor, its two read-only properties,
    the transition [next], [draw] and [run], and the script at the end of
    the module.

    Python lists are mutable objects that are passed by reference.  The grid
    handed to the constructor is kept as it is ([self.__state =
    initial_state]), so the rows live in a store of list objects and the
    outer list holds their addresses; two entries of the outer list may be
    the same row object.

    Integers are unbounded ([Z]).  Exceptions are values: a method is a
    function from the object and the store to an outcome and the object and
    the store it leaves.  The draw of [random.choice] is an argument of the
    constructor. *)

From Stdlib Require Import Ascii Qcanon.
From stdpp Require Import base option list list_numbers numbers gmap strings pretty.

#[local] Open Scope Z_scope.

(** ** Exceptions and the state-and-exception monad *)

Inductive exn : Type :=
  | ValueError (msg : string)
  | IndexError
  | ZeroDivisionError.

Inductive outcome (A : Type) : Type :=
  | Ok (a : A)
  | Raise (e : exn).
Arguments Ok {A} a.
Arguments Raise {A} e.

#[global] Instance exn_eq_dec : EqDecision exn.
Proof. solve_decision. Defined.

(** A statement runs in a state [S]; an exception stops the rest of the
    block and leaves the state as the statements before it made it. *)
Definition M (S A : Type) : Type := S → outcome A * S.

Definition ret {S A} (a : A) : M S A := λ s, (Ok a, s).
Definition raise {S A} (e : exn) : M S A := λ s, (Raise e, s).
Definition bind {S A B} (m : M S A) (k : A → M S B) : M S B :=
  λ s, match m s with
       | (Ok a, s') => k a s'
       | (Raise e, s') => (Raise e, s')
       end.
Definition gets {S A} (f : S → A) : M S A := λ s, (Ok (f s), s).
Definition modify {S} (f : S → S) : M S unit := λ s, (Ok tt, f s).
Definition lift {S A} (o : outcome A) : M S A := λ s, (o, s).

#[global] Instance M_ret {S} : MRet (M S) := λ A, ret.
#[global] Instance M_bind {S} : MBind (M S) := λ A B k m, bind m k.

(** ** Python lists

    [len(l)] is an integer.  [l[i]] accepts [-len(l) <= i < len(l)]; a
    negative index counts from the end; anything else raises
    [IndexError]. *)
Definition len {A} (l : list A) : Z := Z.of_nat (length l).

Definition index_of (n i : Z) : option nat :=
  if bool_decide (0 ≤ i < n) then Some (Z.to_nat i)
  else if bool_decide (- n ≤ i < 0) then Some (Z.to_nat (i + n))
  else None.

Definition getitem {A} (l : list A) (i : Z) : outcome A :=
  match index_of (len l) i ≫= (l !!.) with
  | Some v => Ok v
  | None => Raise IndexError
  end.

Definition setitem {A} (l : list A) (i : Z) (v : A) : outcome (list A) :=
  match index_of (len l) i with
  | Some n => Ok (<[n := v]> l)
  | None => Raise IndexError
  end.

(** [a % b] on integers: the result has the sign of [b], as [Z.modulo];
    [b = 0] raises. *)
Definition py_mod (a b : Z) : outcome Z :=
  if bool_decide (b = 0) then Raise ZeroDivisionError else Ok (a `mod` b).

(** [random.choice(seq)]: the generator draws [rnd], the element at index
    [rnd mod len(seq)] is returned; an empty sequence raises. *)
Definition choice {A} (rnd : nat) (seq : list A) : outcome A :=
  match seq !! (rnd `mod` length seq)%nat with
  | Some v => Ok v
  | None => Raise IndexError
  end.

(** ** [Point] and [Direction] (lines 8-24) *)

Module Point.
Record t : Type := mk { x : Z; y : Z }.
End Point.

Module Direction.
Record t : Type := mk { x : Z; y : Z }.
End Direction.

#[global] Instance Point_eq_dec : EqDecision Point.t.
Proof. solve_decision. Defined.
#[global] Instance Direction_eq_dec : EqDecision Direction.t.
Proof. solve_decision. Defined.

Definition UP : Direction.t := Direction.mk 0 (-1).
Definition RIGHT : Direction.t := Direction.mk 1 0.
Definition DOWN : Direction.t := Direction.mk 0 1.
Definition LEFT : Direction.t := Direction.mk (-1) 0.

Definition DIRECTION_CHOICES : list Direction.t := [UP; RIGHT; DOWN; LEFT].

(** ** The store of row objects *)

Definition loc : Type := nat.
Abbreviation store := (gmap loc (list bool)).

(** The boolean matrix seen through a reference to the outer list. *)
Definition matrix (σ : store) (g : list loc) : list (list bool) :=
  (λ r, σ !!! r) <$> g.

(** ** The class [LangtonsAnt] (lines 27-113) *)

Record LangtonsAnt : Type := mkAnt {
  __height : Z;
  __width : Z;
  __state : list loc;
  __position : Point.t;
  __direction : Direction.t
}.

(** The arguments of the constructor.  [initial_state] is a reference to
    the outer list, [start_position] is [None] or a list of integers.
    [direction] is [None], a list of integers (the annotated type), or an
    instance of [Direction] such as the module's constants. *)
Inductive direction_arg : Type :=
  | NoDirection
  | ListDirection (l : list Z)
  | ADirection (d : Direction.t).

(** [direction in DIRECTION_CHOICES] compares with [==]: a [Direction] is
    equal to a member when both components are; a list is never equal to
    a tuple, and [None] is not either. *)
Definition in_DIRECTION_CHOICES (direction : direction_arg) : option Direction.t :=
  match direction with
  | ADirection d => if bool_decide (d ∈ DIRECTION_CHOICES) then Some d else None
  | ListDirection _ | NoDirection => None
  end.

(** [if start_position:] is the truth value of the argument: [None] and the
    empty list are false. *)
Definition truthy (start_position : option (list Z)) : option (list Z) :=
  match start_position with
  | Some ((_ :: _) as l) => Some l
  | Some [] | None => None
  end.

(** [__init__] (lines 45-72).  [int(w / 2)] is the true division followed
    by truncation; it is the integer quotient for every length a list can
    have (the division is exact on floats below 2^53). *)
Definition __init__ (initial_state : list loc) (start_position : option (list Z))
    (direction : direction_arg) (rnd : nat) : M store LangtonsAnt :=
  (if bool_decide (initial_state = [])
   then raise (ValueError "`initial_state` must contain at least one nested list.")
   else mret tt);;
  let height := len initial_state in
  r0 ← lift (getitem initial_state 0);
  row0 ← gets (λ σ : store, σ !!! r0);
  let width := len row0 in
  (if bool_decide (width = 0)
   then raise (ValueError "`initial_state` nested lists must contain at least one element.")
   else mret tt);;
  errors_in_initial_state ←
    gets (λ σ : store, (λ r, bool_decide (width ≠ len (σ !!! r))) <$> initial_state);
  (if existsb id errors_in_initial_state
   then raise (ValueError "`initial_state` must contain lists with equal number of elements.")
   else mret tt);;
  position ←
    match truthy start_position with
    | Some sp =>
        (if bool_decide (len sp ≠ 2)
         then raise (ValueError "`start_position` must contain 2 integers for ant position.")
         else mret tt);;
        s0 ← lift (getitem sp 0);
        x ← lift (py_mod s0 width);
        s1 ← lift (getitem sp 1);
        y ← lift (py_mod s1 height);
        mret (Point.mk x y)
    | None => mret (Point.mk (width `quot` 2) (height `quot` 2))
    end;
  d ←
    match in_DIRECTION_CHOICES direction with
    | Some d => mret d
    | None => lift (choice rnd DIRECTION_CHOICES)
    end;
  mret (mkAnt height width initial_state position d).

(** A method runs on the object and the store. *)
Record world : Type := World { self : LangtonsAnt; heap : store }.

(** The constructor call [LangtonsAnt(...)]: the instance reaches the caller
    only when [__init__] returns. *)
Definition new (σ : store) (initial_state : list loc)
    (start_position : option (list Z)) (direction : direction_arg) (rnd : nat)
  : outcome world * store :=
  match __init__ initial_state start_position direction rnd σ with
  | (Ok a, σ') => (Ok (World a σ'), σ')
  | (Raise e, σ') => (Raise e, σ')
  end.

Definition set_direction (d : Direction.t) : M world unit :=
  modify (λ w, let a := self w in
    World (mkAnt (__height a) (__width a) (__state a) (__position a) d) (heap w)).

Definition set_position (p : Point.t) : M world unit :=
  modify (λ w, let a := self w in
    World (mkAnt (__height a) (__width a) (__state a) p (__direction a)) (heap w)).

(** [self.__state[x][y]] *)
Definition state_get (x y : Z) : M world bool :=
  g ← gets (λ w, __state (self w));
  r ← lift (getitem g x);
  row ← gets (λ w, heap w !!! r);
  lift (getitem row y).

(** [self.__state[x][y] = v]: the row object [self.__state[x]] is updated
    in the store. *)
Definition state_set (x y : Z) (v : bool) : M world unit :=
  g ← gets (λ w, __state (self w));
  r ← lift (getitem g x);
  row ← gets (λ w, heap w !!! r);
  row' ← lift (setitem row y v);
  modify (λ w, World (self w) (<[r := row']> (heap w))).

(** The property [state] (lines 74-79) returns the reference it was given. *)
Definition state : M world (list loc) :=
  gets (λ w, __state (self w)).

(** The property [position_and_direction] (lines 81-99). *)
Definition position_and_direction : M world (Point.t * string * bool) :=
  d ← gets (λ w, __direction (self w));
  let direction_text :=
    if bool_decide (d = UP) then "UP"
    else if bool_decide (d = RIGHT) then "RIGHT"
    else if bool_decide (d = DOWN) then "DOWN"
    else if bool_decide (d = LEFT) then "LEFT"
    else "" in
  p ← gets (λ w, __position (self w));
  v ← state_get (Point.x p) (Point.y p);
  mret (p, direction_text, v).

(** [next] (lines 101-113). *)
Definition next : M world unit :=
  p ← gets (λ w, __position (self w));
  let x := Point.x p in
  let y := Point.y p in
  v ← state_get x y;
  d ← gets (λ w, __direction (self w));
  (if v : bool
   then set_direction (Direction.mk (Direction.y d) (- Direction.x d))
   else set_direction (Direction.mk (- Direction.y d) (Direction.x d)));;
  v1 ← state_get x y;
  state_set x y (negb v1);;
  p ← gets (λ w, __position (self w));
  d ← gets (λ w, __direction (self w));
  W ← gets (λ w, __width (self w));
  x1 ← lift (py_mod (Point.x p + Direction.x d) W);
  set_position (Point.mk x1 (Point.y p));;
  p ← gets (λ w, __position (self w));
  d ← gets (λ w, __direction (self w));
  H ← gets (λ w, __height (self w));
  y1 ← lift (py_mod (Point.y p + Direction.y d) H);
  set_position (Point.mk (Point.x p) y1).

(** [n] calls of [next] in a row; a call that raises leaves the object as
    it is at the raise, and the caller goes on. *)
Fixpoint steps (n : nat) (w : world) : world :=
  match n with
  | O => w
  | S n' => steps n' (next w).2
  end.

(** What the caller sees through [state]. *)
Definition snapshot (w : world) : list (list bool) :=
  matrix (heap w) (__state (self w)).

(** One cell of a matrix, [None] outside of it. *)
Definition cell (m : list (list bool)) (i j : nat) : option bool :=
  m !! i ≫= (.!! j).

(** ** Derived definitions *)

(** The two rotations of [next]: line 108, taken on a cell that is on, and
    line 110, taken on a cell that is off. *)
Definition turn_on (d : Direction.t) : Direction.t :=
  Direction.mk (Direction.y d) (- Direction.x d).
Definition turn_off (d : Direction.t) : Direction.t :=
  Direction.mk (- Direction.y d) (Direction.x d).

(** The world that [next] leaves when the ant stands on the cell [v] of the
    row object [r]. *)
Definition moved (w : world) (r : loc) (v : bool) : world :=
  let a := self w in
  let p := __position a in
  let d := if v then turn_on (__direction a) else turn_off (__direction a) in
  World
    (mkAnt (__height a) (__width a) (__state a)
       (Point.mk ((Point.x p + Direction.x d) `mod` __width a)
                 ((Point.y p + Direction.y d) `mod` __height a))
       d)
    (<[r := <[Z.to_nat (Point.y p) := negb v]> (heap w !!! r)]> (heap w)).

(** The number of cells of a matrix that are on. *)
Definition count_on (m : list (list bool)) : nat :=
  length (filter (λ b : bool, b = true) (concat m)).

(** The characters of a string, and the character that [__translate]
    gives for a cell. *)
Definition chars (s : string) : list ascii := String.list_ascii_of_string s.
Definition glyph (b : bool) : ascii := if b then "."%char else " "%char.

(** The characters of one line of a frame: the glyphs of the cells, the
    ant's ["x"] at column [j] when [mark] is [Some j], and a line feed. *)
Definition line_chars (cells : list bool) (mark : option nat) : list ascii :=
  match mark with
  | Some j => <[j := "x"%char]> (glyph <$> cells)
  | None => glyph <$> cells
  end ++ ["010"%char].

(** The characters of the frame of a world, line after line. *)
Definition frame_chars (w : world) : list ascii :=
  concat (imap (λ i r,
            line_chars (heap w !!! r)
              (if bool_decide (Z.of_nat i = Point.x (__position (self w)))
               then Some (Z.to_nat (Point.y (__position (self w))))
               else None))
          (__state (self w))).

(** The position that [__init__] computes (lines 59-68), once the grid has
    passed the checks. *)
Definition start_point (W H : Z) (start_position : option (list Z)) : outcome Point.t :=
  match truthy start_position with
  | Some [s0; s1] => Ok (Point.mk (s0 `mod` W) (s1 `mod` H))
  | Some _ => Raise (ValueError "`start_position` must contain 2 integers for ant position.")
  | None => Ok (Point.mk (W `quot` 2) (H `quot` 2))
  end.

(** The direction that [__init__] takes (lines 69-72). *)
Definition start_direction (direction : direction_arg) (rnd : nat) : Direction.t :=
  match in_DIRECTION_CHOICES direction with
  | Some d => d
  | None => nth (rnd `mod` 4)%nat DIRECTION_CHOICES UP
  end.

(** The invariant of the object. *)
Record inv (w : world) : Prop := {
  inv_height : __height (self w) = len (__state (self w));
  inv_width_pos : 0 < __width (self w);
  inv_height_pos : 0 < __height (self w);
  inv_rows : Forall (λ r, len (heap w !!! r) = __width (self w)) (__state (self w));
  inv_x : 0 ≤ Point.x (__position (self w)) < __width (self w);
  inv_y : 0 ≤ Point.y (__position (self w)) < __height (self w);
  inv_direction : __direction (self w) ∈ DIRECTION_CHOICES
}.

(** Which entries of the outer list are the same row object: every entry is
    replaced by the index of the first entry that holds the same address. *)
Definition sharing (g : list loc) : list (option nat) :=
  (λ r, fst <$> list_find (λ r', r' = r) g) <$> g.

(** Two objects in two stores that cannot be told apart. *)
Record sim (w1 w2 : world) : Prop := {
  sim_height : __height (self w1) = __height (self w2);
  sim_width : __width (self w1) = __width (self w2);
  sim_position : __position (self w1) = __position (self w2);
  sim_direction : __direction (self w1) = __direction (self w2);
  sim_sharing : sharing (__state (self w1)) = sharing (__state (self w2));
  sim_snapshot : snapshot w1 = snapshot w2
}.

(** ** Example grids *)

(** A 3×3 grid, all off, made of three row objects. *)
Definition store3 : store :=
  {[ 10%nat := [false; false; false];
     11%nat := [false; false; false];
     12%nat := [false; false; false] ]}.
Definition grid3 : list loc := [10; 11; 12]%nat.

(** The same rows in another store, at other addresses. *)
Definition store3' : store :=
  {[ 1%nat := [false; false; false];
     2%nat := [false; false; false];
     3%nat := [false; false; false] ]}.
Definition grid3' : list loc := [1; 2; 3]%nat.

(** The automaton on [grid3] with the ant at [p] heading [d], and the one
    on [grid3']. *)
Definition ant3 (p : Point.t) (d : Direction.t) : world :=
  World (mkAnt 3 3 grid3 p d) store3.
Definition ant3' (p : Point.t) (d : Direction.t) : world :=
  World (mkAnt 3 3 grid3' p d) store3'.

(** A 2×2 grid whose two rows are one list object, as [[row, row]] or
    [[[False] * 2] * 2] build it. *)
Definition store_shared : store := {[ 1%nat := [false; false] ]}.
Definition grid_shared : list loc := [1; 1]%nat.
Definition ant_shared : world :=
  World (mkAnt 2 2 grid_shared (Point.mk 1 1) UP) store_shared.

(** A 2×2 grid with the same cells, whose two rows are two list objects. *)
Definition store_distinct : store :=
  {[ 1%nat := [false; false]; 2%nat := [false; false] ]}.
Definition grid_distinct : list loc := [1; 2]%nat.
Definition ant_distinct : world :=
  World (mkAnt 2 2 grid_distinct (Point.mk 1 1) UP) store_distinct.

(** One row of three cells: [H = 1], [W = 3]. *)
Definition store13 : store := {[ 1%nat := [false; false; false] ]}.
Definition grid13 : list loc := [1%nat].

(** Three rows of one cell: [H = 3], [W = 1]. *)
Definition store31 : store :=
  {[ 1%nat := [false]; 2%nat := [false]; 3%nat := [false] ]}.
Definition grid31 : list loc := [1; 2; 3]%nat.

(** A single cell. *)
Definition store11 : store := {[ 1%nat := [false] ]}.
Definition grid11 : list loc := [1%nat].

(** ** Output, [draw] and [run] (lines 115-166) *)

(** What a process does to the outside: text written to the standard
    output, a command handed to [os.system], a pause of [time.sleep]. *)
Inductive event : Type :=
  | Stdout (text : string)
  | System (command : string)
  | Sleep (secs : Qc).

(** The methods that write run on the object, the store and the trace of
    the events so far. *)
Record process : Type := Process { obj : world; trace : list event }.

Definition liftW {A} (m : M world A) : M process A :=
  λ s, let '(r, w) := m (obj s) in (r, Process w (trace s)).

Definition emit (e : event) : M process unit :=
  modify (λ s, Process (obj s) (trace s ++ [e])).

(** The line feed, Python's ["\n"]. *)
Definition nl : string := String "010"%char "".

(** [print(s)] writes [s] and a line feed. *)
Definition print (s : string) : M process unit :=
  emit (Stdout (s +:+ nl)).

(** [time.sleep] belongs to the standard library, not to the module: what
    the call does with a given argument, return after the pause or raise,
    is a parameter [time_sleep] of the code that calls it.  The delay is a
    number that the module only hands on. *)
Definition sleep (time_sleep : Qc → outcome unit) (secs : Qc) : M process unit :=
  match time_sleep secs with
  | Ok _ => emit (Sleep secs)
  | Raise e => raise e
  end.

(** [s * n] on a string. *)
Definition str_mul (s : string) (n : Z) : string :=
  String.concat "" (replicate (Z.to_nat n) s).

(** [enumerate(l)] *)
Definition enumerate {A} (l : list A) : list (Z * A) :=
  imap (λ i a, (Z.of_nat i, a)) l.

(** [__translate] (lines 149-158). *)
Definition __translate (value : bool) : string :=
  if value then "." else " ".

(** [__clear] (lines 160-166); [os_name] is [os.name]. *)
Definition __clear (os_name : string) : M process unit :=
  emit (System (if bool_decide (os_name = "nt") then "cls" else "clear")).

(** The loop of [draw] (lines 121-125): [row] is a new list of glyphs, the
    ant's glyph is assigned into it by index. *)
Fixpoint draw_loop (rows : list (Z * loc)) (final_state : string) : M world string :=
  match rows with
  | [] => mret final_state
  | (index, el) :: rest =>
      cells ← gets (λ w, heap w !!! el);
      let row := __translate <$> cells in
      p ← gets (λ w, __position (self w));
      row ← (if bool_decide (index = Point.x p)
             then lift (setitem row (Point.y p) "x")
             else mret row);
      draw_loop rest (final_state +:+ (String.concat "" row +:+ nl))
  end.

(** [draw] (lines 115-126). *)
Definition draw : M process unit :=
  g ← liftW state;
  final_state ← liftW (draw_loop (enumerate g) "");
  print final_state.

(** The loop of [run] (lines 138-147), in an execution in which no
    [KeyboardInterrupt] is delivered: the handler is then never entered, and
    every other exception leaves the loop. *)
Fixpoint run_loop (time_sleep : Qc → outcome unit) (os_name : string) (delay : Qc)
    (clear_each_step : bool) (epochs : list Z) : M process unit :=
  match epochs with
  | [] => mret tt
  | current_epoch :: rest =>
      (if clear_each_step then __clear os_name else mret tt);;
      print ("epoch: " +:+ pretty (current_epoch + 1) +:+ nl +:+ str_mul "=" 10);;
      draw;;
      sleep time_sleep delay;;
      liftW next;;
      run_loop time_sleep os_name delay clear_each_step rest
  end.

(** [run] (lines 128-147); [range(epoch)] is empty when [epoch <= 0]. *)
Definition run (time_sleep : Qc → outcome unit) (os_name : string) (delay : Qc)
    (epoch : Z) (clear_each_step : bool) : M process unit :=
  run_loop time_sleep os_name delay clear_each_step (seqZ 0 epoch).

(** ** The script (lines 169-190) *)

(** The parsed command line: [grid_size] is [None] when the option is
    absent; [delay] and [epoch] have the defaults 0.5 and 111. *)
Record args : Type := Args { grid_size : option Z; delay : Qc; epoch : Z }.

(** [list()] makes a new, empty list object, at an address that no object
    has. *)
Definition list_new : M store loc :=
  λ σ, let r := fresh (dom σ) in (Ok r, <[r := []]> σ).

(** [row.append(v)] *)
Definition list_append (row : loc) (v : bool) : M store unit :=
  modify (λ σ : store, <[row := (σ !!! row) ++ [v]]> σ).

(** The inner loop (lines 186-187). *)
Fixpoint fill_row (row : loc) (js : list Z) : M store unit :=
  match js with
  | [] => mret tt
  | _ :: rest => list_append row false;; fill_row row rest
  end.

(** The outer loop (lines 184-188); [grid] is the local outer list. *)
Fixpoint build_grid (n : Z) (range_i : list Z) (grid : list loc) : M store (list loc) :=
  match range_i with
  | [] => mret grid
  | _ :: rest =>
      row ← list_new;
      fill_row row (seqZ 0 n);;
      build_grid n rest (grid ++ [row])
  end.

(** How the script ends: the exception that leaves it, if any, the store,
    the automaton if it was built, and what was written. *)
Record ending : Type := Ending {
  status : outcome unit;
  memory : store;
  ant : option LangtonsAnt;
  output : list event
}.

(** The script, from the parsed arguments on. *)
Definition main (time_sleep : Qc → outcome unit) (a : args) (os_name : string)
    (rnd : nat) (σ : store) : ending :=
  match grid_size a with
  | None => Ending (Raise (ValueError "`grid_size` parameter required")) σ None []
  | Some n =>
      if bool_decide (n = 0)
      then Ending (Raise (ValueError "`grid_size` parameter required")) σ None []
      else
        match build_grid n (seqZ 0 n) [] σ with
        | (Raise e, σ1) => Ending (Raise e) σ1 None []
        | (Ok grid, σ1) =>
            match new σ1 grid None NoDirection rnd with
            | (Raise e, σ2) => Ending (Raise e) σ2 None []
            | (Ok w, _) =>
                let '(r, s) :=
                  run time_sleep os_name (delay a) (epoch a) true (Process w []) in
                Ending r (heap (obj s)) (Some (self (obj s))) (trace s)
            end
        end
  end.

(** The text that [draw] hands to [print] for a world, with the line feed
    of [print], and the events of one round of the loop of [run] that
    reaches [next]: the command that clears the screen if asked for, the
    header, the frame, the pause. *)
Definition frame_text (w : world) : string :=
  String.string_of_list_ascii (frame_chars w ++ ["010"%char]).

Definition tick_events (os_name : string) (delay : Qc) (clear_each_step : bool)
    (current_epoch : Z) (w : world) : list event :=
  (if clear_each_step
   then [System (if bool_decide (os_name = "nt") then "cls" else "clear")]
   else []) ++
  [Stdout (("epoch: " +:+ pretty (current_epoch + 1) +:+ nl +:+ str_mul "=" 10) +:+ nl);
   Stdout (frame_text w);
   Sleep delay].

(** * Properties *)

Ltac unfold_M :=
  unfold mbind, M_bind, bind, mret, M_ret, ret, gets, modify, lift, raise in *.

Section lists.
Context {A : Type}.
Implicit Types (l : list A) (i : Z).

Lemma index_of_nonneg n i :
  0 ≤ i → index_of n i = if bool_decide (i < n) then Some (Z.to_nat i) else None.
Proof.
  intros Hi. unfold index_of.
  repeat case_bool_decide; try done; lia.
Qed.

Lemma getitem_nonneg l i :
  0 ≤ i →
  getitem l i = match l !! Z.to_nat i with Some v => Ok v | None => Raise IndexError end.
Proof.
  intros Hi. unfold getitem, len. rewrite index_of_nonneg by done.
  case_bool_decide as Hlt; simpl.
  - done.
  - rewrite (lookup_ge_None_2 l (Z.to_nat i)) by lia. done.
Qed.

Lemma setitem_nonneg l i v :
  0 ≤ i → is_Some (l !! Z.to_nat i) →
  setitem l i v = Ok (<[Z.to_nat i := v]> l).
Proof.
  intros Hi Hs. apply lookup_lt_is_Some in Hs.
  unfold setitem, len. rewrite index_of_nonneg by done.
  rewrite bool_decide_eq_true_2 by lia. done.
Qed.

Lemma len_nonneg l : 0 ≤ len l.
Proof. unfold len. lia. Qed.

Lemma len_insert l (n : nat) v : len (<[n := v]> l) = len l.
Proof. unfold len. by rewrite length_insert. Qed.
End lists.

(** [self.__state[x][y]] only reads. *)
Lemma state_get_world x y w : (state_get x y w).2 = w.
Proof.
  unfold state_get. unfold_M.
  destruct (getitem (__state (self w)) x); simpl; [|done].
  destruct (getitem (heap w !!! a) y); done.
Qed.

Lemma state_get_nonneg x y w :
  0 ≤ x → 0 ≤ y →
  state_get x y w =
    (match __state (self w) !! Z.to_nat x with
     | Some r => match (heap w !!! r) !! Z.to_nat y with
                 | Some v => Ok v
                 | None => Raise IndexError
                 end
     | None => Raise IndexError
     end, w).
Proof.
  intros Hx Hy. unfold state_get. unfold_M.
  rewrite getitem_nonneg by done.
  destruct (__state (self w) !! Z.to_nat x) as [r|]; [|done].
  rewrite getitem_nonneg by done.
  by destruct ((heap w !!! r) !! Z.to_nat y).
Qed.

(** The transition on a cell that exists: [next] returns, and leaves
    [moved]. *)
Lemma next_moved w r v :
  let a := self w in
  0 ≤ Point.x (__position a) → 0 ≤ Point.y (__position a) →
  __width a ≠ 0 → __height a ≠ 0 →
  __state a !! Z.to_nat (Point.x (__position a)) = Some r →
  (heap w !!! r) !! Z.to_nat (Point.y (__position a)) = Some v →
  next w = (Ok tt, moved w r v).
Proof.
  destruct w as [[H W g [x y] d] σ]; simpl.
  intros Hx Hy HW HH Hr Hv.
  unfold next, state_set, set_direction, set_position, moved. unfold_M. simpl.
  rewrite state_get_nonneg by done. simpl. rewrite Hr, Hv.
  destruct v; simpl;
    rewrite state_get_nonneg by done; simpl; rewrite Hr, Hv;
    rewrite getitem_nonneg by done; rewrite Hr;
    rewrite setitem_nonneg by (done || eauto);
    unfold py_mod; rewrite !bool_decide_eq_false_2 by done; done.
Qed.

(** When the cell does not exist, the first statement raises and nothing
    has been assigned yet. *)
Lemma next_raise w :
  let a := self w in
  0 ≤ Point.x (__position a) → 0 ≤ Point.y (__position a) →
  (∀ r, __state a !! Z.to_nat (Point.x (__position a)) = Some r →
        (heap w !!! r) !! Z.to_nat (Point.y (__position a)) = None) →
  next w = (Raise IndexError, w).
Proof.
  destruct w as [[H W g [x y] d] σ]; simpl.
  intros Hx Hy Hnone.
  unfold next. unfold_M. simpl.
  rewrite state_get_nonneg by done. simpl.
  destruct (g !! Z.to_nat x) as [r|]; [|done].
  by rewrite (Hnone r).
Qed.

(** ** The constructor *)

Lemma errors_in_initial_state_none (σ : store) (W : Z) (g : list loc) :
  existsb id ((λ r, bool_decide (W ≠ len (σ !!! r))) <$> g) = false ↔
  Forall (λ r, len (σ !!! r) = W) g.
Proof.
  induction g as [|r g IH]; simpl.
  - split; [constructor | done].
  - unfold id at 1. rewrite orb_false_iff, IH, Forall_cons.
    rewrite bool_decide_eq_false. split; intros [H1 H2]; split; try done.
    + destruct (decide (len (σ !!! r) = W)); [done|]. exfalso. apply H1. congruence.
    + intros ?. congruence.
Qed.

Lemma choice_nth rnd :
  choice rnd DIRECTION_CHOICES = Ok (nth (rnd `mod` 4)%nat DIRECTION_CHOICES UP).
Proof.
  unfold choice. simpl length.
  pose proof (Nat.mod_upper_bound rnd 4) as Hlt.
  destruct (rnd `mod` 4)%nat as [|[|[|[|n]]]]; simpl; (done || lia).
Qed.

Lemma in_DIRECTION_CHOICES_Some direction d :
  in_DIRECTION_CHOICES direction = Some d →
  direction = ADirection d ∧ d ∈ DIRECTION_CHOICES.
Proof.
  destruct direction as [| |d']; simpl; try done.
  case_bool_decide; [|done]. by intros [= ->].
Qed.

Lemma start_direction_choices direction rnd :
  start_direction direction rnd ∈ DIRECTION_CHOICES.
Proof.
  unfold start_direction.
  destruct (in_DIRECTION_CHOICES direction) as [d|] eqn:Hd.
  - by apply in_DIRECTION_CHOICES_Some in Hd as [_ ?].
  - pose proof (Nat.mod_upper_bound rnd 4) as Hlt.
    destruct (rnd `mod` 4)%nat as [|[|[|[|n]]]]; simpl; [set_solver .. | lia].
Qed.

(** [__init__] in one equation: the three checks of the grid in their
    order, then the start position, then the direction.  The store is
    returned as it was given in every case. *)
Lemma init_unfold g sp direction rnd (σ : store) :
  __init__ g sp direction rnd σ =
  match g with
  | [] => (Raise (ValueError "`initial_state` must contain at least one nested list."), σ)
  | r0 :: _ =>
      let W := len (σ !!! r0) in
      if bool_decide (W = 0)
      then (Raise (ValueError "`initial_state` nested lists must contain at least one element."), σ)
      else if bool_decide (Forall (λ r, len (σ !!! r) = W) g)
      then match start_point W (len g) sp with
           | Ok p => (Ok (mkAnt (len g) W g p (start_direction direction rnd)), σ)
           | Raise e => (Raise e, σ)
           end
      else (Raise (ValueError "`initial_state` must contain lists with equal number of elements."), σ)
  end.
Proof.
  destruct g as [|r0 g']; [done|].
  unfold __init__. unfold_M.
  rewrite bool_decide_eq_false_2 by done.
  rewrite getitem_nonneg by done. simpl lookup. cbv beta iota.
  set (W := len (σ !!! r0)). set (g := r0 :: g').
  case_bool_decide as HW; [done|].
  destruct (existsb id _) eqn:Herr.
  - rewrite bool_decide_eq_false_2; [done|].
    intros HF. apply errors_in_initial_state_none in HF. congruence.
  - apply errors_in_initial_state_none in Herr.
    rewrite bool_decide_eq_true_2 by done.
    assert (len g ≠ 0) as HH by (unfold g, len; simpl; lia).
    unfold start_point, start_direction. rewrite choice_nth.
    destruct (truthy sp) as [[|s0 [|s1 [|s2 l]]]|] eqn:Hsp.
    + by destruct sp as [[|]|].
    + done.
    + rewrite bool_decide_eq_false_2 by (unfold len; simpl; lia).
      rewrite !getitem_nonneg by done. simpl.
      unfold py_mod. rewrite !bool_decide_eq_false_2 by done.
      by destruct (in_DIRECTION_CHOICES direction).
    + rewrite bool_decide_eq_true_2; [done|]. unfold len. simpl length. lia.
    + by destruct (in_DIRECTION_CHOICES direction).
Qed.

Lemma new_Ok (σ σ' : store) g sp direction rnd w :
  new σ g sp direction rnd = (Ok w, σ') →
  σ' = σ ∧ heap w = σ ∧
  ∃ r0 p,
    g !! 0%nat = Some r0 ∧
    len (σ !!! r0) ≠ 0 ∧
    Forall (λ r, len (σ !!! r) = len (σ !!! r0)) g ∧
    start_point (len (σ !!! r0)) (len g) sp = Ok p ∧
    self w = mkAnt (len g) (len (σ !!! r0)) g p (start_direction direction rnd).
Proof.
  unfold new. rewrite init_unfold.
  destruct g as [|r0 g']; [done|]. cbv zeta.
  case_bool_decide as HW; [done|].
  case_bool_decide as HF; [|done].
  destruct (start_point _ _ sp) as [p|e] eqn:Hp; [|done].
  intros [= <- <-]. simpl. eauto 10.
Qed.

Lemma new_store (σ : store) g sp direction rnd :
  (new σ g sp direction rnd).2 = σ.
Proof.
  unfold new. rewrite init_unfold.
  destruct g as [|r0 g']; [done|]. cbv zeta.
  repeat case_bool_decide; try done.
  by destruct (start_point _ _ sp).
Qed.

Lemma start_point_bounds W H sp p :
  0 < W → 0 < H → start_point W H sp = Ok p →
  0 ≤ Point.x p < W ∧ 0 ≤ Point.y p < H.
Proof.
  intros HW HH. unfold start_point.
  destruct (truthy sp) as [[|s0 [|s1 [|s2 l]]]|]; try done; intros [= <-]; simpl.
  - split; apply Z.mod_pos_bound; done.
  - rewrite !Z.quot_div_nonneg by lia.
    split; split; try (apply Z.div_pos; lia); apply Z.div_lt_upper_bound; lia.
Qed.

Lemma new_inv (σ σ' : store) g sp direction rnd w :
  new σ g sp direction rnd = (Ok w, σ') → inv w.
Proof.
  intros Hnew. apply new_Ok in Hnew as (-> & Hheap & r0 & p & Hr0 & HW & HF & Hp & Hself).
  assert (0 < len (σ !!! r0)) as HWpos by (pose proof (len_nonneg (σ !!! r0)); lia).
  assert (0 < len g) as HHpos.
  { destruct g; [done|]. unfold len. simpl. lia. }
  destruct (start_point_bounds _ _ _ _ HWpos HHpos Hp) as [Hx Hy].
  split; rewrite Hself; simpl; try done.
  - by rewrite Hheap.
  - apply start_direction_choices.
Qed.

(** A [Direction] that is one of the four is kept; a list of integers is
    never recognised, whatever it holds, and a direction is drawn. *)
Lemma start_direction_supplied d rnd :
  d ∈ DIRECTION_CHOICES → start_direction (ADirection d) rnd = d.
Proof.
  intros Hd. unfold start_direction. simpl. by rewrite bool_decide_eq_true_2.
Qed.

Lemma start_direction_list l rnd :
  start_direction (ListDirection l) rnd = nth (rnd `mod` 4)%nat DIRECTION_CHOICES UP.
Proof. done. Qed.

Lemma turn_on_choices d : d ∈ DIRECTION_CHOICES → turn_on d ∈ DIRECTION_CHOICES.
Proof.
  unfold DIRECTION_CHOICES. rewrite !elem_of_cons, elem_of_nil.
  intros [->|[->|[->|[->|[]]]]]; vm_compute; tauto.
Qed.

Lemma turn_off_choices d : d ∈ DIRECTION_CHOICES → turn_off d ∈ DIRECTION_CHOICES.
Proof.
  unfold DIRECTION_CHOICES. rewrite !elem_of_cons, elem_of_nil.
  intros [->|[->|[->|[->|[]]]]]; vm_compute; tauto.
Qed.

Lemma moved_inv w r v :
  inv w → r ∈ __state (self w) → inv (moved w r v).
Proof.
  intros [HH HWpos HHpos Hrows Hx Hy Hd] Hr.
  split; unfold moved; simpl; try done.
  - apply Forall_forall. intros r' Hr'.
    rewrite Forall_forall in Hrows.
    destruct (decide (r = r')) as [->|Hne].
    + rewrite lookup_total_insert_eq, len_insert. by apply Hrows.
    + rewrite lookup_total_insert_ne by done. by apply Hrows.
  - by apply Z.mod_pos_bound.
  - by apply Z.mod_pos_bound.
  - destruct v; [by apply turn_on_choices | by apply turn_off_choices].
Qed.

(** One call of [next] on an object that satisfies the invariant: either
    the ant's cell exists and the call returns with [moved], or it does not
    and the call raises [IndexError] before any assignment. *)
Lemma next_cases w :
  inv w →
  (∃ r v,
      __state (self w) !! Z.to_nat (Point.x (__position (self w))) = Some r ∧
      (heap w !!! r) !! Z.to_nat (Point.y (__position (self w))) = Some v ∧
      next w = (Ok tt, moved w r v)) ∨
  ((∀ r, __state (self w) !! Z.to_nat (Point.x (__position (self w))) = Some r →
         (heap w !!! r) !! Z.to_nat (Point.y (__position (self w))) = None) ∧
   next w = (Raise IndexError, w)).
Proof.
  intros Hinv. pose proof Hinv as [HH HWpos HHpos Hrows Hx Hy Hd].
  destruct (__state (self w) !! Z.to_nat (Point.x (__position (self w))))
    as [r|] eqn:Hr.
  - destruct ((heap w !!! r) !! Z.to_nat (Point.y (__position (self w))))
      as [v|] eqn:Hv.
    + left. exists r, v. split_and!; try done.
      apply next_moved; (done || lia).
    + right. split; [by intros ? [= <-]|].
      apply next_raise; try lia. rewrite Hr. by intros ? [= <-].
  - right. split; [done|]. apply next_raise; try lia. by rewrite Hr.
Qed.

Lemma next_inv w : inv w → inv (next w).2.
Proof.
  intros Hinv.
  destruct (next_cases w Hinv) as [(r & v & Hr & Hv & ->)|[_ ->]]; simpl; [|done].
  apply moved_inv; [done|]. by eapply list_elem_of_lookup_2.
Qed.

Lemma steps_inv n w : inv w → inv (steps n w).
Proof.
  revert w. induction n as [|n IH]; intros w Hinv; simpl; [done|].
  by apply IH, next_inv.
Qed.

(** [next] assigns neither [__height], [__width] nor [__state]. *)
Lemma next_fields w :
  inv w →
  __height (self (next w).2) = __height (self w) ∧
  __width (self (next w).2) = __width (self w) ∧
  __state (self (next w).2) = __state (self w).
Proof.
  intros Hinv.
  by destruct (next_cases w Hinv) as [(r & v & Hr & Hv & ->)|[_ ->]].
Qed.

Lemma steps_fields n w :
  inv w →
  __height (self (steps n w)) = __height (self w) ∧
  __width (self (steps n w)) = __width (self w) ∧
  __state (self (steps n w)) = __state (self w).
Proof.
  revert w. induction n as [|n IH]; intros w Hinv; simpl; [done|].
  destruct (IH (next w).2 (next_inv w Hinv)) as (-> & -> & ->).
  by apply next_fields.
Qed.

(** ** Containment of the position (C4) *)

(** C4. For every automaton that the constructor returns, built from any
    grid, any start position and any direction argument, and for every
    number [n] of calls to [next] (also [n = 0], right after the
    construction), the position satisfies [0 <= x < W] and [0 <= y < H],
    where [W] is the length of the first row and [H] the number of rows of
    the grid at construction. *)
Theorem position_in_bounds (σ σ' : store) g sp direction rnd w n :
  new σ g sp direction rnd = (Ok w, σ') →
  ∃ r0, g !! 0%nat = Some r0 ∧
    0 ≤ Point.x (__position (self (steps n w))) < len (σ !!! r0) ∧
    0 ≤ Point.y (__position (self (steps n w))) < len g.
Proof.
  intros Hnew. pose proof (new_inv _ _ _ _ _ _ _ Hnew) as Hinv.
  apply new_Ok in Hnew as (-> & Hheap & r0 & p & Hr0 & HW & HF & Hp & Hself).
  exists r0. split; [done|].
  destruct (steps_fields n w Hinv) as (HH' & HW' & _).
  destruct (steps_inv n w Hinv) as [_ _ _ _ Hx Hy _].
  rewrite HH', HW', Hself in *. simpl in *. done.
Qed.

Lemma position_in_bounds_witness :
  new store3 grid3 (Some [-7; 100]) (ADirection UP) 0 =
    (Ok (ant3 (Point.mk 2 1) UP), store3) ∧
  ∃ r0, grid3 !! 0%nat = Some r0 ∧
    0 ≤ Point.x (__position (self (steps 7 (ant3 (Point.mk 2 1) UP))))
      < len (store3 !!! r0) ∧
    0 ≤ Point.y (__position (self (steps 7 (ant3 (Point.mk 2 1) UP))))
      < len grid3.
Proof.
  assert (new store3 grid3 (Some [-7; 100]) (ADirection UP) 0 =
            (Ok (ant3 (Point.mk 2 1) UP), store3)) as Hnew by reflexivity.
  split; [exact Hnew|].
  exact (position_in_bounds _ _ _ _ _ _ _ 7%nat Hnew).
Defined.

(** ** Closure of the direction (C5) *)

(** C5. For every automaton that the constructor returns, whether the
    direction was supplied or drawn at random, and after every number of
    calls to [next], the direction is one of UP (0,-1), RIGHT (1,0),
    DOWN (0,1) and LEFT (-1,0). *)
Theorem direction_closed (σ σ' : store) g sp direction rnd w n :
  new σ g sp direction rnd = (Ok w, σ') →
  __direction (self (steps n w)) = Direction.mk 0 (-1) ∨
  __direction (self (steps n w)) = Direction.mk 1 0 ∨
  __direction (self (steps n w)) = Direction.mk 0 1 ∨
  __direction (self (steps n w)) = Direction.mk (-1) 0.
Proof.
  intros Hnew. pose proof (new_inv _ _ _ _ _ _ _ Hnew) as Hinv.
  destruct (steps_inv n w Hinv) as [_ _ _ _ _ _ Hd].
  unfold DIRECTION_CHOICES, UP, RIGHT, DOWN, LEFT in Hd.
  rewrite !elem_of_cons, elem_of_nil in Hd. tauto.
Qed.

Lemma direction_closed_witness :
  new store3 grid3 None (ListDirection [0; -1]) 6 =
    (Ok (ant3 (Point.mk 1 1) DOWN), store3) ∧
  (__direction (self (steps 5 (ant3 (Point.mk 1 1) DOWN))) = Direction.mk 0 (-1) ∨
   __direction (self (steps 5 (ant3 (Point.mk 1 1) DOWN))) = Direction.mk 1 0 ∨
   __direction (self (steps 5 (ant3 (Point.mk 1 1) DOWN))) = Direction.mk 0 1 ∨
   __direction (self (steps 5 (ant3 (Point.mk 1 1) DOWN))) = Direction.mk (-1) 0).
Proof.
  assert (new store3 grid3 None (ListDirection [0; -1]) 6 =
            (Ok (ant3 (Point.mk 1 1) DOWN), store3)) as Hnew by reflexivity.
  split; [exact Hnew|].
  exact (direction_closed _ _ _ _ _ _ _ 5%nat Hnew).
Defined.

(** ** Shape of the grid (C6) *)

Lemma matrix_lengths_insert (σ : store) g r (k : nat) b :
  length <$> matrix (<[r := <[k := b]> (σ !!! r)]> σ) g = length <$> matrix σ g.
Proof.
  unfold matrix. rewrite <- !list_fmap_compose. apply list_fmap_ext.
  intros i r' _. simpl.
  destruct (decide (r = r')) as [->|Hne].
  - by rewrite lookup_total_insert_eq, length_insert.
  - by rewrite lookup_total_insert_ne.
Qed.

Lemma matrix_lengths_replicate (σ : store) g W :
  Forall (λ r, len (σ !!! r) = W) g →
  length <$> matrix σ g = replicate (length g) (Z.to_nat W).
Proof.
  induction 1 as [|r l Hr Hl IH]; simpl; [done|].
  f_equal; [|done]. unfold len in Hr. lia.
Qed.

Lemma next_lengths w :
  inv w → length <$> snapshot (next w).2 = length <$> snapshot w.
Proof.
  intros Hinv.
  destruct (next_cases w Hinv) as [(r & v & Hr & Hv & ->)|[_ ->]]; [|done].
  unfold snapshot, moved. simpl. apply matrix_lengths_insert.
Qed.

Lemma steps_lengths n w :
  inv w → length <$> snapshot (steps n w) = length <$> snapshot w.
Proof.
  revert w. induction n as [|n IH]; intros w Hinv; simpl; [done|].
  rewrite IH by by apply next_inv. by apply next_lengths.
Qed.

(** C6. For every automaton that the constructor returns and every number
    of calls to [next], the matrix read through [state] has the number of
    rows and the row lengths of the grid at construction: the list of the
    row lengths is the same, and it is [H] times [W]. *)
Theorem shape_preserved (σ σ' : store) g sp direction rnd w n :
  new σ g sp direction rnd = (Ok w, σ') →
  (state (steps n w)).1 = Ok g ∧
  length <$> snapshot (steps n w) = length <$> matrix σ g ∧
  length <$> snapshot (steps n w) =
    replicate (Z.to_nat (__height (self w))) (Z.to_nat (__width (self w))).
Proof.
  intros Hnew. pose proof (new_inv _ _ _ _ _ _ _ Hnew) as Hinv.
  pose proof (inv_rows _ Hinv) as Hrows.
  pose proof (inv_height _ Hinv) as HH.
  apply new_Ok in Hnew as (-> & Hheap & r0 & p & Hr0 & HW & HF & Hp & Hself).
  destruct (steps_fields n w Hinv) as (_ & _ & Hstate).
  assert (__state (self w) = g) as Hg by by rewrite Hself.
  split_and!.
  - unfold state, gets. simpl. congruence.
  - rewrite steps_lengths by done. unfold snapshot. by rewrite Hheap, Hg.
  - rewrite steps_lengths by done. unfold snapshot.
    rewrite HH. unfold len at 1. rewrite Nat2Z.id.
    by apply matrix_lengths_replicate.
Qed.

Lemma shape_preserved_witness :
  new store3 grid3 None (ADirection RIGHT) 0 =
    (Ok (ant3 (Point.mk 1 1) RIGHT), store3) ∧
  (state (steps 4 (ant3 (Point.mk 1 1) RIGHT))).1 = Ok grid3 ∧
  length <$> snapshot (steps 4 (ant3 (Point.mk 1 1) RIGHT)) =
    length <$> matrix store3 grid3 ∧
  length <$> snapshot (steps 4 (ant3 (Point.mk 1 1) RIGHT)) =
    replicate (Z.to_nat (__height (self (ant3 (Point.mk 1 1) RIGHT))))
              (Z.to_nat (__width (self (ant3 (Point.mk 1 1) RIGHT)))).
Proof.
  assert (new store3 grid3 None (ADirection RIGHT) 0 =
            (Ok (ant3 (Point.mk 1 1) RIGHT), store3)) as Hnew by reflexivity.
  split; [exact Hnew|].
  exact (shape_preserved _ _ _ _ _ _ _ 4%nat Hnew).
Defined.

(** ** Determinism (C8) *)

Lemma sharing_length g1 g2 : sharing g1 = sharing g2 → length g1 = length g2.
Proof.
  intros Hs. apply (f_equal length) in Hs.
  unfold sharing in Hs. by rewrite !length_fmap in Hs.
Qed.

Lemma sharing_alias_1 g1 g2 (i j : nat) a1 b1 a2 b2 :
  sharing g1 = sharing g2 →
  g1 !! i = Some a1 → g1 !! j = Some b1 →
  g2 !! i = Some a2 → g2 !! j = Some b2 →
  a1 = b1 → a2 = b2.
Proof.
  intros Hs Ha1 Hb1 Ha2 Hb2 <-.
  pose proof (f_equal (.!! i) Hs) as Hi.
  pose proof (f_equal (.!! j) Hs) as Hj.
  unfold sharing in Hi, Hj. simpl in Hi, Hj.
  rewrite !list_lookup_fmap, Ha1, Ha2 in Hi.
  rewrite !list_lookup_fmap, Hb1, Hb2 in Hj.
  simpl in Hi, Hj. rewrite Hi in Hj.
  destruct (list_find (λ r', r' = a2) g2) as [[k y]|] eqn:Hfa;
    destruct (list_find (λ r', r' = b2) g2) as [[k' y']|] eqn:Hfb; simplify_eq/=.
  - apply list_find_Some in Hfa as (Hk & -> & _).
    apply list_find_Some in Hfb as (Hk' & -> & _). congruence.
  - apply list_find_None in Hfa. rewrite Forall_forall in Hfa.
    exfalso. apply (Hfa a2); [by eapply list_elem_of_lookup_2|done].
Qed.

Lemma sharing_alias g1 g2 (i j : nat) a1 b1 a2 b2 :
  sharing g1 = sharing g2 →
  g1 !! i = Some a1 → g1 !! j = Some b1 →
  g2 !! i = Some a2 → g2 !! j = Some b2 →
  a1 = b1 ↔ a2 = b2.
Proof.
  intros Hs ????. split.
  - by eapply (sharing_alias_1 g1 g2).
  - by eapply (sharing_alias_1 g2 g1).
Qed.

Lemma snapshot_lookup w (i : nat) :
  snapshot w !! i = (λ r, heap w !!! r) <$> __state (self w) !! i.
Proof. unfold snapshot, matrix. by rewrite list_lookup_fmap. Qed.

Lemma sim_row w1 w2 (i : nat) r1 r2 :
  sim w1 w2 →
  __state (self w1) !! i = Some r1 → __state (self w2) !! i = Some r2 →
  heap w1 !!! r1 = heap w2 !!! r2.
Proof.
  intros Hsim H1 H2.
  pose proof (f_equal (.!! i) (sim_snapshot _ _ Hsim)) as Hi. simpl in Hi.
  rewrite !snapshot_lookup, H1, H2 in Hi. by simplify_eq/=.
Qed.

Lemma sim_lookup w1 w2 (i : nat) r1 :
  sim w1 w2 →
  __state (self w1) !! i = Some r1 → is_Some (__state (self w2) !! i).
Proof.
  intros Hsim H1. apply lookup_lt_is_Some.
  rewrite <- (sharing_length _ _ (sim_sharing _ _ Hsim)).
  by eapply lookup_lt_Some.
Qed.

Lemma sim_sym w1 w2 : sim w1 w2 → sim w2 w1.
Proof. intros []. by split. Qed.

Lemma moved_sim w1 w2 r1 r2 v :
  sim w1 w2 →
  __state (self w1) !! Z.to_nat (Point.x (__position (self w1))) = Some r1 →
  __state (self w2) !! Z.to_nat (Point.x (__position (self w2))) = Some r2 →
  sim (moved w1 r1 v) (moved w2 r2 v).
Proof.
  intros Hsim H1 H2. pose proof Hsim as [HH HW Hp Hd Hs Hm].
  split; unfold moved; simpl; try done.
  - by rewrite HH, HW, Hp, Hd.
  - by rewrite Hd.
  - rewrite Hp in *. unfold snapshot, matrix. simpl.
    apply list_eq. intros i. rewrite !list_lookup_fmap.
    destruct (__state (self w1) !! i) as [a1|] eqn:Ha1.
    + destruct (sim_lookup _ _ _ _ Hsim Ha1) as [a2 Ha2]. rewrite Ha2. simpl.
      f_equal.
      pose proof (sim_row _ _ _ _ _ Hsim H1 H2) as Hrow.
      destruct (decide (r1 = a1)) as [->|Hne].
      * assert (r2 = a2) as ->.
        { by apply (sharing_alias_1 _ _ _ _ _ _ _ _ Hs H1 Ha1 H2 Ha2). }
        by rewrite !lookup_total_insert_eq, Hrow.
      * assert (r2 ≠ a2) as Hne'.
        { intros ->. apply Hne.
          by apply (sharing_alias _ _ _ _ _ _ _ _ Hs H1 Ha1 H2 Ha2). }
        rewrite !lookup_total_insert_ne by done.
        by eapply sim_row.
    + destruct (__state (self w2) !! i) as [a2|] eqn:Ha2; [|done].
      destruct (sim_lookup _ _ _ _ (sim_sym _ _ Hsim) Ha2) as [a1 Ha1'].
      congruence.
Qed.

Lemma next_sim w1 w2 :
  inv w1 → inv w2 → sim w1 w2 →
  (next w1).1 = (next w2).1 ∧ sim (next w1).2 (next w2).2.
Proof.
  intros Hinv1 Hinv2 Hsim.
  pose proof (sim_position _ _ Hsim) as Hp.
  destruct (next_cases w1 Hinv1) as [(r1 & v1 & Hr1 & Hv1 & ->)|[Hn1 ->]];
    destruct (next_cases w2 Hinv2) as [(r2 & v2 & Hr2 & Hv2 & ->)|[Hn2 ->]];
    simpl.
  - rewrite Hp in Hr1, Hv1.
    rewrite (sim_row _ _ _ _ _ Hsim Hr1 Hr2) in Hv1.
    assert (v1 = v2) as -> by congruence.
    split; [done|]. apply moved_sim; [done| |done]. by rewrite Hp.
  - exfalso. rewrite Hp in Hr1, Hv1.
    destruct (sim_lookup _ _ _ _ Hsim Hr1) as [r2 Hr2].
    rewrite (sim_row _ _ _ _ _ Hsim Hr1 Hr2) in Hv1.
    specialize (Hn2 r2 Hr2). congruence.
  - exfalso. rewrite <- Hp in Hr2, Hv2.
    destruct (sim_lookup _ _ _ _ (sim_sym _ _ Hsim) Hr2) as [r1 Hr1].
    rewrite <- (sim_row _ _ _ _ _ Hsim Hr1 Hr2) in Hv2.
    specialize (Hn1 r1 Hr1). congruence.
  - done.
Qed.

Lemma steps_sim n w1 w2 :
  inv w1 → inv w2 → sim w1 w2 → sim (steps n w1) (steps n w2).
Proof.
  revert w1 w2. induction n as [|n IH]; intros w1 w2 H1 H2 Hsim; simpl; [done|].
  apply IH; try by apply next_inv. by apply next_sim.
Qed.

(** C8, as stated, fails.  Two grids hold the same cells, 2×2 and all off;
    the rows of one are two list objects, the rows of the other are one
    list object twice.  Two automata are built from them with the same
    start position and the same direction UP.  After one call of [next]
    their grids differ, after two calls their directions differ.  And two
    automata built from the same grid with the same start position and the
    same direction given as the list [[0, -1]] start in different
    directions when the two random draws differ. *)
Lemma same_cells_runs_diverge :
  matrix store_distinct grid_distinct = matrix store_shared grid_shared ∧
  new store_distinct grid_distinct None (ADirection UP) 0 =
    (Ok ant_distinct, store_distinct) ∧
  new store_shared grid_shared None (ADirection UP) 0 = (Ok ant_shared, store_shared) ∧
  __position (self ant_distinct) = __position (self ant_shared) ∧
  __direction (self ant_distinct) = __direction (self ant_shared) ∧
  snapshot (steps 1 ant_distinct) = [[false; false]; [false; true]] ∧
  snapshot (steps 1 ant_shared) = [[false; true]; [false; true]] ∧
  snapshot (steps 1 ant_distinct) ≠ snapshot (steps 1 ant_shared) ∧
  __direction (self (steps 2 ant_distinct)) ≠ __direction (self (steps 2 ant_shared)) ∧
  new store3 grid3 (Some [1; 1]) (ListDirection [0; -1]) 0 =
    (Ok (ant3 (Point.mk 1 1) UP), store3) ∧
  new store3 grid3 (Some [1; 1]) (ListDirection [0; -1]) 1 =
    (Ok (ant3 (Point.mk 1 1) RIGHT), store3) ∧
  __direction (self (steps 0 (ant3 (Point.mk 1 1) UP))) ≠
    __direction (self (steps 0 (ant3 (Point.mk 1 1) RIGHT))).
Proof. split_and!; try reflexivity; by vm_compute. Qed.

(** C8, amended.  Two automata are built in two stores from grids with the
    same cells and the same sharing of row objects (the same entries of
    the outer list are the same list object), from the same start position
    and the same direction, supplied as a [Direction] that is one of the
    four; the random draws of the two constructors may differ.  After [n]
    calls of [next] on each, for every [n], the two show the same matrix,
    the same position and the same direction. *)
Theorem runs_deterministic (σ1 σ1' σ2 σ2' : store) g1 g2 sp d rnd1 rnd2 w1 w2 n :
  matrix σ1 g1 = matrix σ2 g2 →
  sharing g1 = sharing g2 →
  d ∈ DIRECTION_CHOICES →
  new σ1 g1 sp (ADirection d) rnd1 = (Ok w1, σ1') →
  new σ2 g2 sp (ADirection d) rnd2 = (Ok w2, σ2') →
  snapshot (steps n w1) = snapshot (steps n w2) ∧
  __position (self (steps n w1)) = __position (self (steps n w2)) ∧
  __direction (self (steps n w1)) = __direction (self (steps n w2)).
Proof.
  intros Hm Hs Hd Hnew1 Hnew2.
  pose proof (new_inv _ _ _ _ _ _ _ Hnew1) as Hinv1.
  pose proof (new_inv _ _ _ _ _ _ _ Hnew2) as Hinv2.
  apply new_Ok in Hnew1 as (-> & Hheap1 & r1 & p1 & Hr1 & HW1 & HF1 & Hp1 & Hself1).
  apply new_Ok in Hnew2 as (-> & Hheap2 & r2 & p2 & Hr2 & HW2 & HF2 & Hp2 & Hself2).
  assert (σ1 !!! r1 = σ2 !!! r2) as Hrow.
  { pose proof (f_equal (.!! 0%nat) Hm) as H0. simpl in H0.
    unfold matrix in H0. rewrite !list_lookup_fmap, Hr1, Hr2 in H0.
    by simplify_eq/=. }
  assert (len g1 = len g2) as Hlen.
  { unfold len. by rewrite (sharing_length _ _ Hs). }
  assert (sim w1 w2) as Hsim.
  { rewrite Hrow, Hlen in *. assert (p1 = p2) as -> by congruence.
    split; rewrite ?Hself1, ?Hself2; simpl; try done.
    - by rewrite !start_direction_supplied.
    - unfold snapshot. by rewrite Hheap1, Hheap2, Hself1, Hself2. }
  destruct (steps_sim n w1 w2 Hinv1 Hinv2 Hsim) as [_ _ ? ? _ ?]. done.
Qed.

Lemma runs_deterministic_witness :
  matrix store3 grid3 = matrix store3' grid3' ∧
  sharing grid3 = sharing grid3' ∧
  UP ∈ DIRECTION_CHOICES ∧
  new store3 grid3 (Some [0; 0]) (ADirection UP) 1 =
    (Ok (ant3 (Point.mk 0 0) UP), store3) ∧
  new store3' grid3' (Some [0; 0]) (ADirection UP) 2 =
    (Ok (ant3' (Point.mk 0 0) UP), store3') ∧
  snapshot (steps 11 (ant3 (Point.mk 0 0) UP)) =
    snapshot (steps 11 (ant3' (Point.mk 0 0) UP)) ∧
  __position (self (steps 11 (ant3 (Point.mk 0 0) UP))) =
    __position (self (steps 11 (ant3' (Point.mk 0 0) UP))) ∧
  __direction (self (steps 11 (ant3 (Point.mk 0 0) UP))) =
    __direction (self (steps 11 (ant3' (Point.mk 0 0) UP))).
Proof.
  assert (matrix store3 grid3 = matrix store3' grid3') as Hm by reflexivity.
  assert (sharing grid3 = sharing grid3') as Hs by reflexivity.
  assert (UP ∈ DIRECTION_CHOICES) as Hd.
  { apply (bool_decide_unpack _). vm_compute. exact I. }
  assert (new store3 grid3 (Some [0; 0]) (ADirection UP) 1 =
            (Ok (ant3 (Point.mk 0 0) UP), store3)) as Hnew1 by reflexivity.
  assert (new store3' grid3' (Some [0; 0]) (ADirection UP) 2 =
            (Ok (ant3' (Point.mk 0 0) UP), store3')) as Hnew2 by reflexivity.
  split_and!; try assumption;
    apply (runs_deterministic _ _ _ _ _ _ _ _ _ _ _ _ 11%nat Hm Hs Hd Hnew1 Hnew2).
Defined.

(** ** The rotations (C10) *)

(** C10. The two rotations of [next], [d ↦ (d.y, -d.x)] for an on cell and
    [d ↦ (-d.y, d.x)] for an off cell, map the four directions to the four
    directions, each undoes the other, each permutes the four, and four
    applications of either give the direction back. *)
Theorem turns_inverse (d : Direction.t) :
  d ∈ DIRECTION_CHOICES →
  turn_on d = Direction.mk (Direction.y d) (- Direction.x d) ∧
  turn_off d = Direction.mk (- Direction.y d) (Direction.x d) ∧
  turn_on d ∈ DIRECTION_CHOICES ∧
  turn_off d ∈ DIRECTION_CHOICES ∧
  turn_off (turn_on d) = d ∧
  turn_on (turn_off d) = d ∧
  turn_on <$> DIRECTION_CHOICES ≡ₚ DIRECTION_CHOICES ∧
  turn_off <$> DIRECTION_CHOICES ≡ₚ DIRECTION_CHOICES ∧
  turn_on (turn_on (turn_on (turn_on d))) = d ∧
  turn_off (turn_off (turn_off (turn_off d))) = d.
Proof.
  intros Hd. split_and!; try done.
  - by apply turn_on_choices.
  - by apply turn_off_choices.
  - destruct d as [x y]. unfold turn_on, turn_off. simpl. f_equal. lia.
  - destruct d as [x y]. unfold turn_on, turn_off. simpl. f_equal. lia.
  - change (turn_on <$> DIRECTION_CHOICES) with [LEFT; UP; RIGHT; DOWN].
    unfold DIRECTION_CHOICES.
    change [LEFT; UP; RIGHT; DOWN] with ([LEFT] ++ [UP; RIGHT; DOWN]).
    change [UP; RIGHT; DOWN; LEFT] with ([UP; RIGHT; DOWN] ++ [LEFT]).
    apply Permutation_app_comm.
  - change (turn_off <$> DIRECTION_CHOICES) with [RIGHT; DOWN; LEFT; UP].
    unfold DIRECTION_CHOICES.
    change [RIGHT; DOWN; LEFT; UP] with ([RIGHT; DOWN; LEFT] ++ [UP]).
    change [UP; RIGHT; DOWN; LEFT] with ([UP] ++ [RIGHT; DOWN; LEFT]).
    apply Permutation_app_comm.
  - destruct d as [x y]. unfold turn_on. simpl. f_equal; lia.
  - destruct d as [x y]. unfold turn_off. simpl. f_equal; lia.
Qed.

Lemma turns_inverse_witness :
  LEFT ∈ DIRECTION_CHOICES ∧
  turn_on LEFT = Direction.mk (Direction.y LEFT) (- Direction.x LEFT) ∧
  turn_off LEFT = Direction.mk (- Direction.y LEFT) (Direction.x LEFT) ∧
  turn_on LEFT ∈ DIRECTION_CHOICES ∧
  turn_off LEFT ∈ DIRECTION_CHOICES ∧
  turn_off (turn_on LEFT) = LEFT ∧
  turn_on (turn_off LEFT) = LEFT ∧
  turn_on <$> DIRECTION_CHOICES ≡ₚ DIRECTION_CHOICES ∧
  turn_off <$> DIRECTION_CHOICES ≡ₚ DIRECTION_CHOICES ∧
  turn_on (turn_on (turn_on (turn_on LEFT))) = LEFT ∧
  turn_off (turn_off (turn_off (turn_off LEFT))) = LEFT.
Proof.
  assert (LEFT ∈ DIRECTION_CHOICES) as Hd.
  { apply (bool_decide_unpack _). vm_compute. exact I. }
  split; [exact Hd|]. exact (turns_inverse LEFT Hd).
Defined.

(** ** The frame of one step (C9) *)

Lemma cell_snapshot w (i j : nat) v :
  cell (snapshot w) i j = Some v ↔
  ∃ r, __state (self w) !! i = Some r ∧ (heap w !!! r) !! j = Some v.
Proof.
  unfold cell. rewrite snapshot_lookup.
  destruct (__state (self w) !! i) as [r|]; simpl.
  - split; [eauto|]. by intros (? & [= <-] & ?).
  - split; [done|]. by intros (? & ? & ?).
Qed.

(** The cells of [moved]: the rows that are the object [r] have the entry
    of the ant's column negated, the others are as before. *)
Lemma cell_moved w r v (i j : nat) :
  cell (snapshot (moved w r v)) i j =
  match __state (self w) !! i with
  | Some r' =>
      if decide (r' = r)
      then <[Z.to_nat (Point.y (__position (self w))) := negb v]> (heap w !!! r) !! j
      else (heap w !!! r') !! j
  | None => None
  end.
Proof.
  unfold cell. rewrite snapshot_lookup. unfold moved. simpl.
  destruct (__state (self w) !! i) as [r'|]; simpl; [|done].
  case_decide as Hr.
  - subst r'. by rewrite lookup_total_insert_eq.
  - by rewrite lookup_total_insert_ne.
Qed.

(** C9, as stated, fails: on the grid of two references to one row, with the
    ant on cell (1,1), one call of [next] returns and also changes cell
    (0,1), which the ant does not occupy. *)
Lemma shared_row_changes_two_cells :
  new store_shared grid_shared None (ADirection UP) 0 = (Ok ant_shared, store_shared) ∧
  __position (self ant_shared) = Point.mk 1 1 ∧
  (next ant_shared).1 = Ok tt ∧
  snapshot ant_shared = [[false; false]; [false; false]] ∧
  snapshot (next ant_shared).2 = [[false; true]; [false; true]] ∧
  cell (snapshot ant_shared) 0 1 = Some false ∧
  cell (snapshot (next ant_shared).2) 0 1 = Some true.
Proof. split; [reflexivity|]. by vm_compute. Qed.

(** C9, amended. The automaton is built from a grid whose rows are pairwise
    distinct list objects, and after any number of calls the ant stands on
    a cell of the grid, of value [v].  Then one call of [next] returns; the
    ant's cell becomes [not v]; every other cell of the matrix keeps its
    value; [__height], [__width] and the reference [__state] keep theirs;
    and no list object outside of the grid is touched. *)
Theorem next_changes_one_cell (σ σ' : store) g sp direction rnd w0 n v :
  new σ g sp direction rnd = (Ok w0, σ') →
  NoDup g →
  cell (snapshot (steps n w0))
       (Z.to_nat (Point.x (__position (self (steps n w0)))))
       (Z.to_nat (Point.y (__position (self (steps n w0))))) = Some v →
  (next (steps n w0)).1 = Ok tt ∧
  cell (snapshot (next (steps n w0)).2)
       (Z.to_nat (Point.x (__position (self (steps n w0)))))
       (Z.to_nat (Point.y (__position (self (steps n w0))))) = Some (negb v) ∧
  (∀ i j : nat,
      (i, j) ≠ (Z.to_nat (Point.x (__position (self (steps n w0)))),
                Z.to_nat (Point.y (__position (self (steps n w0))))) →
      cell (snapshot (next (steps n w0)).2) i j = cell (snapshot (steps n w0)) i j) ∧
  __height (self (next (steps n w0)).2) = __height (self (steps n w0)) ∧
  __width (self (next (steps n w0)).2) = __width (self (steps n w0)) ∧
  __state (self (next (steps n w0)).2) = g ∧
  (∀ r : loc, r ∉ g → heap (next (steps n w0)).2 !! r = heap (steps n w0) !! r).
Proof.
  intros Hnew Hnd Hcell.
  pose proof (new_inv _ _ _ _ _ _ _ Hnew) as Hinv0.
  assert (__state (self w0) = g) as Hg0.
  { apply new_Ok in Hnew as (_ & _ & r0 & p & _ & _ & _ & _ & ->). done. }
  destruct (steps_fields n w0 Hinv0) as (_ & _ & Hstate).
  rewrite Hg0 in Hstate.
  pose proof (steps_inv n w0 Hinv0) as Hinv.
  set (w := steps n w0) in *.
  set (x := Z.to_nat (Point.x (__position (self w)))) in *.
  set (y := Z.to_nat (Point.y (__position (self w)))) in *.
  apply cell_snapshot in Hcell as (r & Hr & Hv).
  assert (next w = (Ok tt, moved w r v)) as ->.
  { pose proof (inv_x _ Hinv). pose proof (inv_y _ Hinv).
    pose proof (inv_width_pos _ Hinv). pose proof (inv_height_pos _ Hinv).
    apply next_moved; (done || lia). }
  simpl. split_and!; try done.
  - rewrite cell_moved. fold x y. rewrite Hr, decide_True by done.
    apply list_lookup_insert_eq. by eapply lookup_lt_Some.
  - intros i j Hij. rewrite cell_moved. fold y. unfold cell.
    rewrite snapshot_lookup.
    destruct (__state (self w) !! i) as [r'|] eqn:Hr'; simpl; [|done].
    case_decide as Heq; [|done]. subst r'.
    rewrite Hstate in Hr, Hr'.
    assert (i = x) as -> by (by eapply NoDup_lookup).
    rewrite list_lookup_insert_ne; [done|]. congruence.
  - intros r' Hr'. apply lookup_insert_ne. intros ->. apply Hr'.
    rewrite <- Hstate. by eapply list_elem_of_lookup_2.
Qed.

Lemma next_changes_one_cell_witness :
  new store3 grid3 None (ADirection LEFT) 0 =
    (Ok (ant3 (Point.mk 1 1) LEFT), store3) ∧
  NoDup grid3 ∧
  __position (self (steps 2 (ant3 (Point.mk 1 1) LEFT))) = Point.mk 2 0 ∧
  cell (snapshot (steps 2 (ant3 (Point.mk 1 1) LEFT))) 2 0 = Some false ∧
  (next (steps 2 (ant3 (Point.mk 1 1) LEFT))).1 = Ok tt ∧
  cell (snapshot (next (steps 2 (ant3 (Point.mk 1 1) LEFT))).2) 2 0 = Some true ∧
  (∀ i j : nat, (i, j) ≠ (2%nat, 0%nat) →
     cell (snapshot (next (steps 2 (ant3 (Point.mk 1 1) LEFT))).2) i j =
     cell (snapshot (steps 2 (ant3 (Point.mk 1 1) LEFT))) i j) ∧
  __height (self (next (steps 2 (ant3 (Point.mk 1 1) LEFT))).2) =
    __height (self (steps 2 (ant3 (Point.mk 1 1) LEFT))) ∧
  __width (self (next (steps 2 (ant3 (Point.mk 1 1) LEFT))).2) =
    __width (self (steps 2 (ant3 (Point.mk 1 1) LEFT))) ∧
  __state (self (next (steps 2 (ant3 (Point.mk 1 1) LEFT))).2) = grid3 ∧
  (∀ r : loc, r ∉ grid3 →
     heap (next (steps 2 (ant3 (Point.mk 1 1) LEFT))).2 !! r =
     heap (steps 2 (ant3 (Point.mk 1 1) LEFT)) !! r).
Proof.
  assert (new store3 grid3 None (ADirection LEFT) 0 =
            (Ok (ant3 (Point.mk 1 1) LEFT), store3)) as Hnew by reflexivity.
  assert (NoDup grid3) as Hnd.
  { apply (bool_decide_unpack _). vm_compute. exact I. }
  assert (__position (self (steps 2 (ant3 (Point.mk 1 1) LEFT))) = Point.mk 2 0)
    as Hpos by reflexivity.
  assert (cell (snapshot (steps 2 (ant3 (Point.mk 1 1) LEFT))) 2 0 = Some false)
    as Hcell by reflexivity.
  split; [exact Hnew|]. split; [exact Hnd|]. split; [exact Hpos|].
  split; [exact Hcell|].
  exact (next_changes_one_cell _ _ _ _ _ _ _ 2%nat false Hnew Hnd Hcell).
Defined.

(** ** The first step from the corner of a 3×3 grid (C3) *)

(** C3, as stated, fails: on the 3×3 grid, all off, with the ant built at
    (0,0) heading UP, one call of [next] leaves the ant heading RIGHT at
    (1,0), not heading LEFT at (2,0). *)
Lemma first_step_not_left :
  new store3 grid3 (Some [0; 0]) (ADirection UP) 0 =
    (Ok (ant3 (Point.mk 0 0) UP), store3) ∧
  snapshot (ant3 (Point.mk 0 0) UP) = replicate 3 (replicate 3 false) ∧
  (next (ant3 (Point.mk 0 0) UP)).1 = Ok tt ∧
  __direction (self (next (ant3 (Point.mk 0 0) UP)).2) = RIGHT ∧
  __direction (self (next (ant3 (Point.mk 0 0) UP)).2) ≠ LEFT ∧
  __position (self (next (ant3 (Point.mk 0 0) UP)).2) = Point.mk 1 0 ∧
  __position (self (next (ant3 (Point.mk 0 0) UP)).2) ≠ Point.mk 2 0.
Proof. split; [reflexivity|]. by vm_compute. Qed.

(** C3, amended. On every 3×3 grid, all off, with the ant built at (0,0)
    heading UP, one call of [next] returns, flips cell (0,0) from off to
    on, turns the ant by the off rule [(-d.y, d.x)] from UP (0,-1) to
    RIGHT (1,0), and leaves the ant at (1,0), [x = (0 + 1) mod 3]. *)
Theorem first_step_from_corner (σ : store) g rnd :
  matrix σ g = replicate 3 (replicate 3 false) →
  ∃ w,
    new σ g (Some [0; 0]) (ADirection UP) rnd = (Ok w, σ) ∧
    __position (self w) = Point.mk 0 0 ∧
    __direction (self w) = UP ∧
    (next w).1 = Ok tt ∧
    cell (snapshot w) 0 0 = Some false ∧
    cell (snapshot (next w).2) 0 0 = Some true ∧
    __direction (self (next w).2) = RIGHT ∧
    __position (self (next w).2) = Point.mk 1 0.
Proof.
  intros Hm.
  destruct g as [|a [|b [|c [|? ?]]]]; try done.
  unfold matrix in Hm. simpl in Hm. injection Hm as Ha Hb Hc.
  set (w := World (mkAnt 3 3 [a; b; c] (Point.mk 0 0) UP) σ).
  assert (new σ [a; b; c] (Some [0; 0]) (ADirection UP) rnd = (Ok w, σ)) as Hnew.
  { unfold new. rewrite init_unfold. cbv zeta. rewrite Ha.
    rewrite bool_decide_eq_false_2 by done.
    rewrite bool_decide_eq_true_2; [done|].
    repeat constructor; by rewrite ?Ha, ?Hb, ?Hc. }
  assert (next w = (Ok tt, moved w a false)) as Hnext.
  { apply next_moved; try done. simpl. by rewrite Ha. }
  exists w. rewrite Hnext. cbn [fst snd]. split_and!; try done.
  - apply cell_snapshot. exists a. simpl. by rewrite Ha.
  - rewrite cell_moved. simpl. rewrite decide_True by done. by rewrite Ha.
Qed.

Lemma first_step_from_corner_witness :
  matrix store3 grid3 = replicate 3 (replicate 3 false) ∧
  ∃ w,
    new store3 grid3 (Some [0; 0]) (ADirection UP) 3 = (Ok w, store3) ∧
    __position (self w) = Point.mk 0 0 ∧
    __direction (self w) = UP ∧
    (next w).1 = Ok tt ∧
    cell (snapshot w) 0 0 = Some false ∧
    cell (snapshot (next w).2) 0 0 = Some true ∧
    __direction (self (next w).2) = RIGHT ∧
    __position (self (next w).2) = Point.mk 1 0.
Proof.
  assert (matrix store3 grid3 = replicate 3 (replicate 3 false)) as Hm
    by reflexivity.
  split; [exact Hm|]. exact (first_step_from_corner store3 grid3 3%nat Hm).
Defined.

(** ** The transition where the ant's cell exists *)

(** X4. [next] on an automaton whose ant stands on a cell of value [v]: the
    call returns; the direction becomes [(d.y, -d.x)] when [v] is on and
    [(-d.y, d.x)] when it is off; the cell is negated; the position
    advances by the new direction, [x] modulo [W] and [y] modulo [H]. *)
Lemma next_transition (σ σ' : store) g sp direction rnd w0 n v :
  new σ g sp direction rnd = (Ok w0, σ') →
  cell (snapshot (steps n w0))
       (Z.to_nat (Point.x (__position (self (steps n w0)))))
       (Z.to_nat (Point.y (__position (self (steps n w0))))) = Some v →
  ∃ d',
    d' = (if v
          then Direction.mk (Direction.y (__direction (self (steps n w0))))
                            (- Direction.x (__direction (self (steps n w0))))
          else Direction.mk (- Direction.y (__direction (self (steps n w0))))
                            (Direction.x (__direction (self (steps n w0))))) ∧
    (next (steps n w0)).1 = Ok tt ∧
    __direction (self (next (steps n w0)).2) = d' ∧
    cell (snapshot (next (steps n w0)).2)
         (Z.to_nat (Point.x (__position (self (steps n w0)))))
         (Z.to_nat (Point.y (__position (self (steps n w0))))) = Some (negb v) ∧
    __position (self (next (steps n w0)).2) =
      Point.mk
        ((Point.x (__position (self (steps n w0))) + Direction.x d')
           `mod` __width (self w0))
        ((Point.y (__position (self (steps n w0))) + Direction.y d')
           `mod` __height (self w0)).
Proof.
  intros Hnew Hcell.
  pose proof (new_inv _ _ _ _ _ _ _ Hnew) as Hinv0.
  destruct (steps_fields n w0 Hinv0) as (HH & HW & _).
  pose proof (steps_inv n w0 Hinv0) as Hinv.
  rewrite <- HH, <- HW.
  set (w := steps n w0) in *.
  apply cell_snapshot in Hcell as (r & Hr & Hv).
  assert (next w = (Ok tt, moved w r v)) as ->.
  { pose proof (inv_x _ Hinv). pose proof (inv_y _ Hinv).
    pose proof (inv_width_pos _ Hinv). pose proof (inv_height_pos _ Hinv).
    apply next_moved; (done || lia). }
  eexists. split; [reflexivity|]. cbn [fst snd]. split_and!.
  - done.
  - unfold moved. simpl. by destruct v.
  - rewrite cell_moved, Hr, decide_True by done.
    apply list_lookup_insert_eq. by eapply lookup_lt_Some.
  - unfold moved. simpl. by destruct v.
Qed.

(** On a square grid the ant's cell always exists. *)
Lemma square_cell w :
  inv w → __height (self w) = __width (self w) →
  ∃ v, cell (snapshot w)
         (Z.to_nat (Point.x (__position (self w))))
         (Z.to_nat (Point.y (__position (self w)))) = Some v.
Proof.
  intros [HH HWpos HHpos Hrows Hx Hy Hd] Hsq.
  destruct (lookup_lt_is_Some_2 (__state (self w))
              (Z.to_nat (Point.x (__position (self w))))) as [r Hr].
  { unfold len in HH. lia. }
  rewrite Forall_forall in Hrows.
  pose proof (Hrows r (list_elem_of_lookup_2 _ _ _ Hr)) as Hlen.
  destruct (lookup_lt_is_Some_2 (heap w !!! r)
              (Z.to_nat (Point.y (__position (self w))))) as [v Hv].
  { unfold len in Hlen. lia. }
  exists v. apply cell_snapshot. eauto.
Qed.

(** [position_and_direction] where the ant's cell exists: it returns the
    position, the name of the direction and the value of the cell. *)
Lemma position_and_direction_cell w v :
  inv w →
  cell (snapshot w)
       (Z.to_nat (Point.x (__position (self w))))
       (Z.to_nat (Point.y (__position (self w)))) = Some v →
  ∃ name,
    position_and_direction w = (Ok (__position (self w), name, v), w) ∧
    ((__direction (self w) = UP ∧ name = "UP") ∨
     (__direction (self w) = RIGHT ∧ name = "RIGHT") ∨
     (__direction (self w) = DOWN ∧ name = "DOWN") ∨
     (__direction (self w) = LEFT ∧ name = "LEFT")).
Proof.
  intros Hinv Hcell. apply cell_snapshot in Hcell as (r & Hr & Hv).
  pose proof (inv_x _ Hinv) as Hx. pose proof (inv_y _ Hinv) as Hy.
  pose proof (inv_direction _ Hinv) as Hd.
  unfold position_and_direction. unfold_M. simpl.
  rewrite state_get_nonneg by lia. rewrite Hr, Hv.
  eexists. split; [reflexivity|].
  unfold DIRECTION_CHOICES in Hd. rewrite !elem_of_cons, elem_of_nil in Hd.
  destruct Hd as [->|[->|[->|[->|[]]]]]; vm_compute; tauto.
Qed.

(** X18. On a square grid neither [next] nor [position_and_direction]
    raises, whatever the number of calls before. *)
Lemma square_safe (σ σ' : store) g sp direction rnd w0 n :
  new σ g sp direction rnd = (Ok w0, σ') →
  __height (self w0) = __width (self w0) →
  (next (steps n w0)).1 = Ok tt ∧
  ∃ name v,
    position_and_direction (steps n w0) =
      (Ok (__position (self (steps n w0)), name, v), steps n w0) ∧
    name ∈ ["UP"; "RIGHT"; "DOWN"; "LEFT"] ∧
    cell (snapshot (steps n w0))
         (Z.to_nat (Point.x (__position (self (steps n w0)))))
         (Z.to_nat (Point.y (__position (self (steps n w0))))) = Some v.
Proof.
  intros Hnew Hsq.
  pose proof (new_inv _ _ _ _ _ _ _ Hnew) as Hinv0.
  destruct (steps_fields n w0 Hinv0) as (HH & HW & _).
  pose proof (steps_inv n w0 Hinv0) as Hinv.
  destruct (square_cell (steps n w0) Hinv) as [v Hv]; [congruence|].
  split.
  - apply cell_snapshot in Hv as (r & Hr & Hv).
    pose proof (inv_x _ Hinv). pose proof (inv_y _ Hinv).
    pose proof (inv_width_pos _ Hinv). pose proof (inv_height_pos _ Hinv).
    rewrite (next_moved _ r v) by (done || lia). done.
  - destruct (position_and_direction_cell _ v Hinv Hv) as (name & Hpd & Hname).
    exists name, v. split_and!; [done| |done].
    destruct Hname as [[_ ->]|[[_ ->]|[[_ ->]|[_ ->]]]]; set_solver.
Qed.

(** ** Non-square grids (C1, C2) *)

(** C1 at a failing input. The constructor accepts the grid of one row of
    three cells and puts the ant at [(W/2, H/2) = (1, 0)]; [next] then
    reads [self.__state[1]], which does not exist, raises [IndexError] and
    performs no part of the transition: the object and the store are as
    before the call. *)
Theorem next_raises_on_1x3 direction rnd :
  ∃ w,
    new store13 grid13 None direction rnd = (Ok w, store13) ∧
    __height (self w) = 1 ∧ __width (self w) = 3 ∧
    __position (self w) = Point.mk 1 0 ∧
    next w = (Raise IndexError, w).
Proof.
  eexists. split; [|split_and!].
  - unfold new. rewrite init_unfold. reflexivity.
  - done.
  - done.
  - done.
  - by apply next_raise.
Qed.

(** C2 at a failing input. The constructor accepts the grid of three rows
    of one cell and puts the ant at [(W/2, H/2) = (0, 1)]; both
    [position_and_direction] and [next] read [self.__state[0][1]], past the
    end of the row, and raise [IndexError]. *)
Theorem calls_raise_on_3x1 direction rnd :
  ∃ w,
    new store31 grid31 None direction rnd = (Ok w, store31) ∧
    __height (self w) = 3 ∧ __width (self w) = 1 ∧
    __position (self w) = Point.mk 0 1 ∧
    (position_and_direction w).1 = Raise IndexError ∧
    (next w).1 = Raise IndexError.
Proof.
  eexists. split; [|split_and!].
  - unfold new. rewrite init_unfold. reflexivity.
  - done.
  - done.
  - done.
  - unfold position_and_direction. unfold_M. cbn [self __direction __position].
    by rewrite state_get_nonneg.
  - rewrite next_raise; [done..|]. simpl. by intros r [= <-].
Qed.

(** ** Rejection by the constructor (C7) *)

(** The constructor raises exactly in four cases: no row; an empty first
    row; a row of another length than the first; a non-empty
    [start_position] of a length other than two.  It raises nothing but
    [ValueError], and it returns the store as it was given. *)
Lemma new_raises_iff (σ : store) g sp direction rnd :
  (∃ e, (new σ g sp direction rnd).1 = Raise e) ↔
  g = [] ∨
  (∃ r0, g !! 0%nat = Some r0 ∧ σ !!! r0 = []) ∨
  (∃ r0 r, g !! 0%nat = Some r0 ∧ r ∈ g ∧ length (σ !!! r) ≠ length (σ !!! r0)) ∨
  (∃ l, sp = Some l ∧ l ≠ [] ∧ length l ≠ 2%nat).
Proof.
  unfold new. rewrite init_unfold.
  destruct g as [|r0 g']; [by split; eauto|]. cbv zeta.
  set (g := r0 :: g').
  case_bool_decide as HW.
  { simpl. split; [intros _|by eauto]. right; left. exists r0. split; [done|].
    unfold len in HW. destruct (σ !!! r0); [done|]. simpl in HW. lia. }
  case_bool_decide as HF.
  - assert (∀ l, sp = Some l → l ≠ [] → length l ≠ 2%nat →
              ∃ e, start_point (len (σ !!! r0)) (len g) sp = Raise e) as Hbad.
    { intros l -> Hl Hlen. unfold start_point.
      destruct l as [|s0 [|s1 [|s2 l]]]; simpl; by eauto. }
    split.
    + destruct (start_point _ _ sp) as [p|e] eqn:Hp; simpl; [by intros [? ?]|].
      intros _. do 3 right. unfold start_point in Hp.
      destruct sp as [[|s0 [|s1 [|s2 l]]]|]; simpl in Hp; try done;
        eexists; split_and!; done.
    + intros [?|[(r & [= <-] & Hr)|[(r & r' & [= <-] & Hr' & Hne)|(l & Hsp & Hl & Hlen)]]].
      * done.
      * exfalso. apply HW. unfold len. by rewrite Hr.
      * exfalso. rewrite Forall_forall in HF. specialize (HF r' Hr').
        unfold len in HF. lia.
      * destruct (Hbad l Hsp Hl Hlen) as [e ->]. eauto.
  - simpl. split; [intros _|by eauto]. right; right; left.
    apply not_Forall_Exists in HF; [|intros ?; apply _].
    apply Exists_exists in HF as (r & Hr & Hne). simpl in Hne.
    exists r0, r. split_and!; [done..|]. unfold len in Hne. lia.
Qed.

Lemma new_raises_ValueError (σ : store) g sp direction rnd e :
  (new σ g sp direction rnd).1 = Raise e → ∃ msg, e = ValueError msg.
Proof.
  unfold new. rewrite init_unfold.
  destruct g as [|r0 g']; [intros [= <-]; eauto|]. cbv zeta.
  repeat case_bool_decide; try (intros [= <-]; by eauto).
  unfold start_point.
  destruct (truthy sp) as [[|s0 [|s1 [|s2 l]]]|]; simpl;
    try done; intros [= <-]; eauto.
Qed.

(** C7 at a failing input. A start position with no component is supplied
    together with a valid 1×1 grid; the constructor does not fail: the
    empty list is false in [if start_position:], the length check is
    skipped and the ant is put at the centre, as if the argument had been
    omitted. *)
Theorem empty_start_position_accepted :
  new store11 grid11 (Some []) (ADirection UP) 0 =
    (Ok (World (mkAnt 1 1 grid11 (Point.mk 0 0) UP) store11), store11) ∧
  ∀ (σ : store) g direction rnd,
    new σ g (Some []) direction rnd = new σ g None direction rnd.
Proof. split; [reflexivity|]. intros. unfold new. by rewrite !init_unfold. Qed.

(** * Further properties of the constructor and of [next] *)

(** X1. The constructor raises exactly in four cases: no row; an empty first
    row; a row of another length than the first; a non-empty
    [start_position] of a length other than two.  What it raises is a
    [ValueError], and the store is returned as it was given whether it
    raises or not. *)
Theorem constructor_rejects_iff (σ : store) g sp direction rnd :
  ((∃ e, (new σ g sp direction rnd).1 = Raise e) ↔
   g = [] ∨
   (∃ r0, g !! 0%nat = Some r0 ∧ σ !!! r0 = []) ∨
   (∃ r0 r, g !! 0%nat = Some r0 ∧ r ∈ g ∧ length (σ !!! r) ≠ length (σ !!! r0)) ∨
   (∃ l, sp = Some l ∧ l ≠ [] ∧ length l ≠ 2%nat)) ∧
  (∀ e, (new σ g sp direction rnd).1 = Raise e → ∃ msg, e = ValueError msg) ∧
  (new σ g sp direction rnd).2 = σ.
Proof.
  split_and!.
  - apply new_raises_iff.
  - apply new_raises_ValueError.
  - apply new_store.
Qed.

(** X2. The start position is taken modulo the dimensions: shifting a valid
    start position by any multiples of the width in [x] and of the height
    in [y], negative ones too, builds the same automaton. *)
Theorem start_position_wraps (σ σ' : store) g a b i j direction rnd w :
  new σ g (Some [a; b]) direction rnd = (Ok w, σ') →
  new σ g (Some [a + i * __width (self w); b + j * __height (self w)]) direction rnd
    = (Ok w, σ').
Proof.
  intros Hnew.
  apply new_Ok in Hnew as (-> & Hheap & r0 & p & Hr0 & HW & HF & Hp & Hself).
  destruct w as [a0 σ0]. simpl in *. subst σ0 a0. simpl.
  destruct g as [|r g']; [done|]. injection Hr0 as ->.
  unfold new. rewrite init_unfold. cbv zeta.
  rewrite bool_decide_eq_false_2 by done.
  rewrite bool_decide_eq_true_2 by done.
  unfold start_point in *. simpl in *. injection Hp as <-.
  assert (len (r0 :: g') ≠ 0) by (unfold len; simpl; lia).
  by rewrite !Z.mod_add.
Qed.

Lemma start_position_wraps_witness :
  new store3 grid3 (Some [2; 1]) (ADirection UP) 0 =
    (Ok (ant3 (Point.mk 2 1) UP), store3) ∧
  new store3 grid3
      (Some [2 + (-3) * __width (self (ant3 (Point.mk 2 1) UP));
             1 + 33 * __height (self (ant3 (Point.mk 2 1) UP))])
      (ADirection UP) 0 =
    (Ok (ant3 (Point.mk 2 1) UP), store3).
Proof.
  assert (new store3 grid3 (Some [2; 1]) (ADirection UP) 0 =
            (Ok (ant3 (Point.mk 2 1) UP), store3)) as Hnew by reflexivity.
  split; [exact Hnew|].
  exact (start_position_wraps _ _ _ 2 1 (-3) 33 _ _ _ Hnew).
Defined.

(** X5. One call of [next] is all or nothing.  On an automaton that the
    constructor returned, after any number of calls: when the ant's cell
    exists the call returns; when it does not, the call raises [IndexError]
    and the object and the store are exactly as before the call. *)
Theorem next_all_or_nothing (σ σ' : store) g sp direction rnd w0 n :
  new σ g sp direction rnd = (Ok w0, σ') →
  ((next (steps n w0)).1 = Ok tt ∧
   is_Some (cell (snapshot (steps n w0))
              (Z.to_nat (Point.x (__position (self (steps n w0)))))
              (Z.to_nat (Point.y (__position (self (steps n w0))))))) ∨
  (next (steps n w0) = (Raise IndexError, steps n w0) ∧
   cell (snapshot (steps n w0))
     (Z.to_nat (Point.x (__position (self (steps n w0)))))
     (Z.to_nat (Point.y (__position (self (steps n w0))))) = None).
Proof.
  intros Hnew.
  pose proof (steps_inv n w0 (new_inv _ _ _ _ _ _ _ Hnew)) as Hinv.
  destruct (next_cases _ Hinv) as [(r & v & Hr & Hv & ->)|[Hnone ->]].
  - left. split; [done|]. exists v. apply cell_snapshot. eauto.
  - right. split; [done|].
    destruct (cell _ _ _) as [v|] eqn:Hcell; [|done].
    apply cell_snapshot in Hcell as (r & Hr & Hv).
    rewrite (Hnone r Hr) in Hv. done.
Qed.

Lemma next_all_or_nothing_witness :
  new store13 grid13 None (ADirection UP) 0 =
    (Ok (World (mkAnt 1 3 grid13 (Point.mk 1 0) UP) store13), store13) ∧
  (((next (steps 2 (World (mkAnt 1 3 grid13 (Point.mk 1 0) UP) store13))).1 = Ok tt ∧
    is_Some (cell (snapshot (steps 2 (World (mkAnt 1 3 grid13 (Point.mk 1 0) UP) store13)))
      (Z.to_nat (Point.x (__position (self
         (steps 2 (World (mkAnt 1 3 grid13 (Point.mk 1 0) UP) store13))))))
      (Z.to_nat (Point.y (__position (self
         (steps 2 (World (mkAnt 1 3 grid13 (Point.mk 1 0) UP) store13)))))))) ∨
   (next (steps 2 (World (mkAnt 1 3 grid13 (Point.mk 1 0) UP) store13)) =
      (Raise IndexError, steps 2 (World (mkAnt 1 3 grid13 (Point.mk 1 0) UP) store13)) ∧
    cell (snapshot (steps 2 (World (mkAnt 1 3 grid13 (Point.mk 1 0) UP) store13)))
      (Z.to_nat (Point.x (__position (self
         (steps 2 (World (mkAnt 1 3 grid13 (Point.mk 1 0) UP) store13))))))
      (Z.to_nat (Point.y (__position (self
         (steps 2 (World (mkAnt 1 3 grid13 (Point.mk 1 0) UP) store13)))))) = None)).
Proof.
  assert (new store13 grid13 None (ADirection UP) 0 =
            (Ok (World (mkAnt 1 3 grid13 (Point.mk 1 0) UP) store13), store13))
    as Hnew by reflexivity.
  split; [exact Hnew|].
  exact (next_all_or_nothing _ _ _ _ _ _ _ 2%nat Hnew).
Defined.

Lemma steps_stuck w m : (next w).2 = w → steps m w = w.
Proof.
  intros Hw. induction m as [|m IH]; simpl; [done|]. by rewrite Hw.
Qed.

Lemma steps_add m n w : steps (m + n) w = steps n (steps m w).
Proof.
  revert w. induction m as [|m IH]; intros w; simpl; [done|]. apply IH.
Qed.

(** X6. An automaton whose [next] has raised is stuck: every later call
    finds the object as it was and raises [IndexError] again. *)
Theorem next_raises_forever (σ σ' : store) g sp direction rnd w0 n m e :
  new σ g sp direction rnd = (Ok w0, σ') →
  (next (steps n w0)).1 = Raise e →
  steps (n + m) w0 = steps n w0 ∧
  next (steps (n + m) w0) = (Raise IndexError, steps n w0).
Proof.
  intros Hnew Hraise.
  destruct (next_all_or_nothing _ _ _ _ _ _ _ n Hnew) as [[Hok _]|[Hnext _]].
  { congruence. }
  assert (steps (n + m) w0 = steps n w0) as ->.
  { rewrite steps_add. apply steps_stuck. by rewrite Hnext. }
  done.
Qed.

Lemma next_raises_forever_witness :
  new store31 grid31 None (ADirection UP) 0 =
    (Ok (World (mkAnt 3 1 grid31 (Point.mk 0 1) UP) store31), store31) ∧
  (next (steps 0 (World (mkAnt 3 1 grid31 (Point.mk 0 1) UP) store31))).1 =
    Raise IndexError ∧
  steps (0 + 9) (World (mkAnt 3 1 grid31 (Point.mk 0 1) UP) store31) =
    steps 0 (World (mkAnt 3 1 grid31 (Point.mk 0 1) UP) store31) ∧
  next (steps (0 + 9) (World (mkAnt 3 1 grid31 (Point.mk 0 1) UP) store31)) =
    (Raise IndexError, steps 0 (World (mkAnt 3 1 grid31 (Point.mk 0 1) UP) store31)).
Proof.
  assert (new store31 grid31 None (ADirection UP) 0 =
            (Ok (World (mkAnt 3 1 grid31 (Point.mk 0 1) UP) store31), store31))
    as Hnew by reflexivity.
  assert ((next (steps 0 (World (mkAnt 3 1 grid31 (Point.mk 0 1) UP) store31))).1 =
            Raise IndexError) as Hraise by reflexivity.
  split; [exact Hnew|]. split; [exact Hraise|].
  exact (next_raises_forever _ _ _ _ _ _ _ 0%nat 9%nat _ Hnew Hraise).
Defined.

Lemma snapshot_moved w r v :
  NoDup (__state (self w)) →
  __state (self w) !! Z.to_nat (Point.x (__position (self w))) = Some r →
  snapshot (moved w r v) =
    <[Z.to_nat (Point.x (__position (self w))) :=
        <[Z.to_nat (Point.y (__position (self w))) := negb v]> (heap w !!! r)]>
      (snapshot w).
Proof.
  intros Hnd Hr. apply list_eq. intros i.
  rewrite snapshot_lookup. unfold moved at 1 2. simpl.
  destruct (decide (i = Z.to_nat (Point.x (__position (self w))))) as [->|Hne].
  - rewrite Hr. simpl. rewrite lookup_total_insert_eq.
    rewrite list_lookup_insert_eq; [done|].
    unfold snapshot, matrix. rewrite length_fmap. by eapply lookup_lt_Some.
  - rewrite list_lookup_insert_ne by done. rewrite snapshot_lookup.
    destruct (__state (self w) !! i) as [r'|] eqn:Hr'; simpl; [|done].
    rewrite lookup_total_insert_ne; [done|].
    intros ->. apply Hne. symmetry. by eapply NoDup_lookup.
Qed.

Lemma count_on_insert (m : list (list bool)) (i j : nat) row v :
  m !! i = Some row → row !! j = Some v →
  (count_on (<[i := <[j := negb v]> row]> m) + (if v then 1 else 0) =
   count_on m + (if v then 0 else 1))%nat.
Proof.
  intros Hi Hj. unfold count_on.
  rewrite insert_take_drop by (by eapply lookup_lt_Some).
  rewrite <- (take_drop_middle m i row Hi) at 3.
  rewrite !concat_app. simpl. rewrite !filter_app, !length_app.
  rewrite insert_take_drop by (by eapply lookup_lt_Some).
  rewrite <- (take_drop_middle row j v Hj) at 3.
  rewrite !filter_app, !length_app, !filter_cons.
  destruct v; simpl; repeat case_decide; simplify_eq/=; lia.
Qed.

(** X7. On a grid whose rows are distinct list objects, one call of [next]
    while the ant stands on a cell changes the number of cells that are on
    by exactly one: one more when the ant's cell was off, one less when it
    was on. *)
Theorem next_count_on (σ σ' : store) g sp direction rnd w0 n v :
  new σ g sp direction rnd = (Ok w0, σ') →
  NoDup g →
  cell (snapshot (steps n w0))
       (Z.to_nat (Point.x (__position (self (steps n w0)))))
       (Z.to_nat (Point.y (__position (self (steps n w0))))) = Some v →
  (count_on (snapshot (next (steps n w0)).2) + (if v then 1 else 0) =
   count_on (snapshot (steps n w0)) + (if v then 0 else 1))%nat.
Proof.
  intros Hnew Hnd Hcell.
  pose proof (new_inv _ _ _ _ _ _ _ Hnew) as Hinv0.
  assert (__state (self w0) = g) as Hg0.
  { apply new_Ok in Hnew as (_ & _ & r0 & p & _ & _ & _ & _ & ->). done. }
  destruct (steps_fields n w0 Hinv0) as (_ & _ & Hstate).
  rewrite Hg0 in Hstate.
  pose proof (steps_inv n w0 Hinv0) as Hinv.
  set (w := steps n w0) in *.
  apply cell_snapshot in Hcell as (r & Hr & Hv).
  assert (next w = (Ok tt, moved w r v)) as ->.
  { pose proof (inv_x _ Hinv). pose proof (inv_y _ Hinv).
    pose proof (inv_width_pos _ Hinv). pose proof (inv_height_pos _ Hinv).
    apply next_moved; (done || lia). }
  cbn [snd]. rewrite snapshot_moved; [|by rewrite Hstate|done].
  apply count_on_insert; [|done].
  by rewrite snapshot_lookup, Hr.
Qed.

Lemma next_count_on_witness :
  new store3 grid3 None (ADirection LEFT) 0 =
    (Ok (ant3 (Point.mk 1 1) LEFT), store3) ∧
  NoDup grid3 ∧
  cell (snapshot (steps 4 (ant3 (Point.mk 1 1) LEFT)))
       (Z.to_nat (Point.x (__position (self (steps 4 (ant3 (Point.mk 1 1) LEFT))))))
       (Z.to_nat (Point.y (__position (self (steps 4 (ant3 (Point.mk 1 1) LEFT))))))
    = Some true ∧
  (count_on (snapshot (next (steps 4 (ant3 (Point.mk 1 1) LEFT))).2) + 1 =
   count_on (snapshot (steps 4 (ant3 (Point.mk 1 1) LEFT))) + 0)%nat.
Proof.
  assert (new store3 grid3 None (ADirection LEFT) 0 =
            (Ok (ant3 (Point.mk 1 1) LEFT), store3)) as Hnew by reflexivity.
  assert (NoDup grid3) as Hnd.
  { apply (bool_decide_unpack _). vm_compute. exact I. }
  assert (cell (snapshot (steps 4 (ant3 (Point.mk 1 1) LEFT)))
       (Z.to_nat (Point.x (__position (self (steps 4 (ant3 (Point.mk 1 1) LEFT))))))
       (Z.to_nat (Point.y (__position (self (steps 4 (ant3 (Point.mk 1 1) LEFT))))))
    = Some true) as Hcell by reflexivity.
  split; [exact Hnew|]. split; [exact Hnd|]. split; [exact Hcell|].
  exact (next_count_on _ _ _ _ _ _ _ 4%nat true Hnew Hnd Hcell).
Defined.

(** * [draw] *)

Lemma chars_app s1 s2 : chars (s1 +:+ s2) = chars s1 ++ chars s2.
Proof. unfold chars. induction s1 as [|c s1 IH]; simpl; [done|]. by rewrite IH. Qed.

Lemma join_cons (x : string) (xs : list string) :
  String.concat "" (x :: xs) = x +:+ String.concat "" xs.
Proof.
  destruct xs as [|x' xs]; simpl; [|done].
  induction x as [|c x IH]; [done|].
  change (String c x = String c (x +:+ "")). by f_equal.
Qed.

Lemma chars_join_glyphs (cs : list ascii) :
  chars (String.concat "" ((λ c, String c "") <$> cs)) = cs.
Proof.
  induction cs as [|c cs IH]; [done|].
  rewrite fmap_cons, join_cons, chars_app, IH. done.
Qed.

Lemma translate_glyph (cells : list bool) :
  __translate <$> cells = (λ c, String c "") <$> (glyph <$> cells).
Proof. rewrite <- list_fmap_compose. apply list_fmap_ext. by intros ? [] ?. Qed.

Lemma setitem_out_of_range {A} (l : list A) i v :
  len l ≤ i → setitem l i v = Raise IndexError.
Proof.
  intros Hi. pose proof (len_nonneg l).
  unfold setitem. rewrite index_of_nonneg by lia.
  by rewrite bool_decide_eq_false_2 by lia.
Qed.

(** The loop of [draw] never assigns to the object or the store. *)
Lemma draw_loop_world rows acc w : (draw_loop rows acc w).2 = w.
Proof.
  revert acc. induction rows as [|[index el] rows IH]; intros acc; [done|].
  simpl. unfold_M. simpl. case_bool_decide; simpl.
  - destruct (setitem _ _ _); simpl; [apply IH|done].
  - apply IH.
Qed.

(** The loop over the rows from index [k] on, when the assignment of the
    ant's glyph is in range wherever it happens. *)
Lemma draw_loop_ok w (k : nat) (g : list loc) acc :
  0 ≤ Point.y (__position (self w)) →
  (∀ i r, g !! i = Some r → Z.of_nat (k + i) = Point.x (__position (self w)) →
          Point.y (__position (self w)) < len (heap w !!! r)) →
  ∃ text,
    draw_loop (imap (λ i a, (Z.of_nat (k + i), a)) g) acc w = (Ok text, w) ∧
    chars text = chars acc ++
      concat (imap (λ i r,
                line_chars (heap w !!! r)
                  (if bool_decide (Z.of_nat (k + i) = Point.x (__position (self w)))
                   then Some (Z.to_nat (Point.y (__position (self w))))
                   else None)) g).
Proof.
  intros Hy. revert k acc. induction g as [|r g IH]; intros k acc Hin.
  { eexists. split; [done|]. simpl. by rewrite app_nil_r. }
  rewrite !imap_cons. cbn [draw_loop]. unfold_M. cbn beta iota.
  rewrite Nat.add_0_r.
  assert (∀ i r', g !! i = Some r' →
            Z.of_nat (S k + i) = Point.x (__position (self w)) →
            Point.y (__position (self w)) < len (heap w !!! r')) as Hin'.
  { intros i r' Hi Hx. apply (Hin (S i) r'); [done|]. rewrite <- Hx. lia. }
  rewrite (imap_ext ((λ i a, (Z.of_nat (k + i), a)) ∘ S)
             (λ i a, (Z.of_nat (S k + i), a)) g)
    by (intros; simpl; f_equal; lia).
  rewrite (imap_ext
    ((λ i r0, line_chars (heap w !!! r0)
       (if bool_decide (Z.of_nat (k + i) = Point.x (__position (self w)))
        then Some (Z.to_nat (Point.y (__position (self w)))) else None)) ∘ S)
    (λ i r0, line_chars (heap w !!! r0)
       (if bool_decide (Z.of_nat (S k + i) = Point.x (__position (self w)))
        then Some (Z.to_nat (Point.y (__position (self w)))) else None)) g)
    by (intros; simpl; by replace (k + S i)%nat with (S (k + i)) by lia).
  case_bool_decide as Hk.
  - assert (Point.y (__position (self w)) < len (heap w !!! r)) as Hlt.
    { apply (Hin 0%nat r); [done|]. rewrite Nat.add_0_r. done. }
    rewrite setitem_nonneg; [|done|].
    2:{ apply lookup_lt_is_Some. rewrite length_fmap. unfold len in Hlt. lia. }
    cbn beta iota.
    destruct (IH (S k)
      (acc +:+ (String.concat "" (<[Z.to_nat (Point.y (__position (self w))) := "x"]>
                                    (__translate <$> heap w !!! r)) +:+ nl)) Hin')
      as (text & -> & Htext).
    exists text. split; [done|]. rewrite Htext, !chars_app.
    rewrite <- app_assoc. f_equal. simpl. f_equal.
    unfold line_chars. f_equal.
    rewrite translate_glyph.
    change "x"%string with ((λ c, String c "") "x"%char).
    rewrite <- list_fmap_insert. apply chars_join_glyphs.
  - destruct (IH (S k)
      (acc +:+ (String.concat "" (__translate <$> heap w !!! r) +:+ nl)) Hin')
      as (text & -> & Htext).
    exists text. split; [done|]. rewrite Htext, !chars_app.
    rewrite <- app_assoc. f_equal. simpl. f_equal.
    unfold line_chars. f_equal.
    rewrite translate_glyph. apply chars_join_glyphs.
Qed.

(** The loop raises at the row of the ant when the ant's column is past
    the end of that row. *)
Lemma draw_loop_raise w (k : nat) (g : list loc) acc (i : nat) r :
  0 ≤ Point.y (__position (self w)) →
  g !! i = Some r →
  Z.of_nat (k + i) = Point.x (__position (self w)) →
  len (heap w !!! r) ≤ Point.y (__position (self w)) →
  draw_loop (imap (λ i a, (Z.of_nat (k + i), a)) g) acc w = (Raise IndexError, w).
Proof.
  intros Hy. revert k acc i. induction g as [|r' g IH]; intros k acc i Hi Hx Hlen.
  { done. }
  rewrite imap_cons. cbn [draw_loop]. unfold_M. cbn beta iota.
  rewrite (imap_ext ((λ i a, (Z.of_nat (k + i), a)) ∘ S)
             (λ i a, (Z.of_nat (S k + i), a)) g)
    by (intros; simpl; f_equal; lia).
  destruct i as [|i]; simpl in Hi.
  - injection Hi as ->. rewrite bool_decide_eq_true_2 by done.
    rewrite setitem_out_of_range; [done|]. unfold len in *. by rewrite length_fmap.
  - rewrite bool_decide_eq_false_2 by lia. cbn beta iota.
    apply (IH (S k) _ i); [done|lia|done].
Qed.

Lemma length_line_chars cells mark :
  length (line_chars cells mark) = S (length cells).
Proof.
  unfold line_chars. rewrite length_app. simpl.
  destruct mark; rewrite ?length_insert, length_fmap; lia.
Qed.

Lemma lookup_concat_uniform {A} (bs : list (list A)) (k i j : nat) b :
  Forall (λ b, length b = k) bs →
  bs !! i = Some b → (j < k)%nat →
  concat bs !! (i * k + j)%nat = b !! j.
Proof.
  intros HF. revert i. induction HF as [|b0 bs Hb0 HF IH]; intros i Hi Hj; [done|].
  destruct i as [|i]; simpl in *.
  - injection Hi as ->. by rewrite lookup_app_l by lia.
  - rewrite lookup_app_r by lia.
    replace (k + i * k + j - length b0)%nat with (i * k + j)%nat by lia.
    by apply IH.
Qed.

Lemma length_concat_uniform {A} (bs : list (list A)) (k : nat) :
  Forall (λ b, length b = k) bs → length (concat bs) = (length bs * k)%nat.
Proof.
  induction 1 as [|b0 bs Hb0 HF IH]; simpl; [done|].
  rewrite length_app, IH. lia.
Qed.

Lemma frame_lines_uniform w :
  inv w →
  Forall (λ b, length b = S (Z.to_nat (__width (self w))))
    (imap (λ i r,
       line_chars (heap w !!! r)
         (if bool_decide (Z.of_nat i = Point.x (__position (self w)))
          then Some (Z.to_nat (Point.y (__position (self w))))
          else None))
       (__state (self w))).
Proof.
  intros Hinv. pose proof (inv_rows _ Hinv) as Hrows.
  rewrite Forall_forall in Hrows.
  apply Forall_lookup. intros i b Hb.
  rewrite list_lookup_imap in Hb.
  destruct (__state (self w) !! i) as [r|] eqn:Hr; [|done].
  injection Hb as <-. rewrite length_line_chars.
  specialize (Hrows r (list_elem_of_lookup_2 _ _ _ Hr)).
  unfold len in Hrows. lia.
Qed.

(** [draw] on an automaton that satisfies the invariant, when the ant's row
    is outside of the grid or its column inside: it returns, does not touch
    the object, and writes one text, the frame and the line feed of
    [print]. *)
Lemma draw_ok w t :
  inv w →
  (Point.x (__position (self w)) < __height (self w) →
   Point.y (__position (self w)) < __width (self w)) →
  ∃ text,
    draw (Process w t) = (Ok tt, Process w (t ++ [Stdout text])) ∧
    chars text = frame_chars w ++ ["010"%char].
Proof.
  intros Hinv Hcol.
  pose proof (inv_rows _ Hinv) as Hrows. rewrite Forall_forall in Hrows.
  pose proof (inv_height _ Hinv) as HH.
  pose proof (inv_y _ Hinv) as Hy.
  destruct (draw_loop_ok w 0 (__state (self w)) "") as (text & Hloop & Htext).
  { lia. }
  { intros i r Hi Hx.
    rewrite (Hrows r (list_elem_of_lookup_2 _ _ _ Hi)). apply Hcol.
    apply lookup_lt_Some in Hi. rewrite HH. unfold len. simpl in Hx. lia. }
  exists (text +:+ nl). split.
  - unfold draw, state, print, emit, liftW, enumerate. unfold_M. simpl.
    simpl in Hloop. by rewrite Hloop.
  - rewrite chars_app, Htext. done.
Qed.

Lemma draw_raise w t :
  inv w →
  Point.x (__position (self w)) < __height (self w) →
  __width (self w) ≤ Point.y (__position (self w)) →
  draw (Process w t) = (Raise IndexError, Process w t).
Proof.
  intros Hinv Hrow Hcol.
  pose proof (inv_rows _ Hinv) as Hrows. rewrite Forall_forall in Hrows.
  pose proof (inv_height _ Hinv) as HH.
  pose proof (inv_x _ Hinv) as Hx. pose proof (inv_y _ Hinv) as Hy.
  destruct (lookup_lt_is_Some_2 (__state (self w))
              (Z.to_nat (Point.x (__position (self w))))) as [r Hr].
  { unfold len in HH. lia. }
  pose proof (draw_loop_raise w 0 (__state (self w)) ""
                (Z.to_nat (Point.x (__position (self w)))) r) as Hloop.
  simpl in Hloop.
  unfold draw, state, print, emit, liftW, enumerate. unfold_M. simpl.
  rewrite Hloop; [done|lia|done|lia|].
  by rewrite (Hrows r (list_elem_of_lookup_2 _ _ _ Hr)).
Qed.

(** One character of the frame: line [i], column [j]. *)
Lemma frame_chars_cell w (i j : nat) b :
  inv w →
  cell (snapshot w) i j = Some b →
  frame_chars w !! (i * S (Z.to_nat (__width (self w))) + j)%nat =
    Some (if bool_decide (Z.of_nat i = Point.x (__position (self w)) ∧
                          Z.of_nat j = Point.y (__position (self w)))
          then "x"%char else glyph b).
Proof.
  intros Hinv Hcell. apply cell_snapshot in Hcell as (r & Hr & Hb).
  pose proof (inv_rows _ Hinv) as Hrows. rewrite Forall_forall in Hrows.
  pose proof (Hrows r (list_elem_of_lookup_2 _ _ _ Hr)) as Hlen.
  pose proof (inv_y _ Hinv) as Hy.
  pose proof (lookup_lt_Some _ _ _ Hb) as Hj. unfold len in Hlen.
  unfold frame_chars.
  erewrite lookup_concat_uniform; [|by apply frame_lines_uniform| |lia].
  2:{ rewrite list_lookup_imap, Hr. done. }
  unfold line_chars.
  rewrite lookup_app_l.
  2:{ case_bool_decide; rewrite ?length_insert, length_fmap; lia. }
  case_bool_decide as Hi.
  - destruct (decide (Z.to_nat (Point.y (__position (self w))) = j)) as [<-|Hne].
    + rewrite list_lookup_insert_eq by (rewrite length_fmap; lia).
      rewrite bool_decide_eq_true_2; [done|]. split; [done|lia].
    + rewrite list_lookup_insert_ne by done.
      rewrite list_lookup_fmap, Hb. simpl.
      rewrite bool_decide_eq_false_2; [done|]. intros [_ ?]. lia.
  - rewrite list_lookup_fmap, Hb. simpl.
    rewrite bool_decide_eq_false_2; [done|]. by intros [? _].
Qed.

Lemma frame_chars_length w :
  inv w →
  length (frame_chars w) =
    (Z.to_nat (__height (self w)) * S (Z.to_nat (__width (self w))))%nat.
Proof.
  intros Hinv. unfold frame_chars.
  rewrite (length_concat_uniform _ _ (frame_lines_uniform w Hinv)).
  rewrite length_imap. rewrite (inv_height _ Hinv). unfold len. by rewrite Nat2Z.id.
Qed.

Lemma frame_chars_line_feed w (i : nat) :
  inv w → (i < Z.to_nat (__height (self w)))%nat →
  frame_chars w !! (i * S (Z.to_nat (__width (self w))) + Z.to_nat (__width (self w)))%nat
    = Some "010"%char.
Proof.
  intros Hinv Hi.
  pose proof (inv_rows _ Hinv) as Hrows. rewrite Forall_forall in Hrows.
  destruct (lookup_lt_is_Some_2 (__state (self w)) i) as [r Hr].
  { rewrite (inv_height _ Hinv) in Hi. unfold len in Hi. lia. }
  pose proof (Hrows r (list_elem_of_lookup_2 _ _ _ Hr)) as Hlen. unfold len in Hlen.
  unfold frame_chars.
  erewrite lookup_concat_uniform; [|by apply frame_lines_uniform| |lia].
  2:{ rewrite list_lookup_imap, Hr. done. }
  unfold line_chars. rewrite lookup_app_r.
  2:{ case_bool_decide; rewrite ?length_insert, length_fmap; lia. }
  replace (_ - _)%nat with 0%nat; [done|].
  case_bool_decide; rewrite ?length_insert, length_fmap; lia.
Qed.

Lemma cell_in_range w :
  inv w →
  Point.x (__position (self w)) < __height (self w) →
  Point.y (__position (self w)) < __width (self w) →
  ∃ v, cell (snapshot w)
         (Z.to_nat (Point.x (__position (self w))))
         (Z.to_nat (Point.y (__position (self w)))) = Some v.
Proof.
  intros [HH HWpos HHpos Hrows Hx Hy Hd] Hrow Hcol.
  destruct (lookup_lt_is_Some_2 (__state (self w))
              (Z.to_nat (Point.x (__position (self w))))) as [r Hr].
  { unfold len in HH. lia. }
  rewrite Forall_forall in Hrows.
  pose proof (Hrows r (list_elem_of_lookup_2 _ _ _ Hr)) as Hlen.
  destruct (lookup_lt_is_Some_2 (heap w !!! r)
              (Z.to_nat (Point.y (__position (self w))))) as [v Hv].
  { unfold len in Hlen. lia. }
  exists v. apply cell_snapshot. eauto.
Qed.

(** X8. The accessors only read: [state], [position_and_direction] and
    [draw] leave the object and the store as they are, whether they return
    or raise; [draw] writes one text when it returns and nothing when it
    raises. *)
Theorem accessors_read_only (s : process) :
  (state (obj s)).2 = obj s ∧
  (position_and_direction (obj s)).2 = obj s ∧
  obj (draw s).2 = obj s ∧
  ((∃ e, (draw s).1 = Raise e ∧ trace (draw s).2 = trace s) ∨
   (∃ text, (draw s).1 = Ok tt ∧ trace (draw s).2 = trace s ++ [Stdout text])).
Proof.
  destruct s as [w t]. simpl. split_and!.
  - done.
  - unfold position_and_direction. unfold_M. simpl.
    pose proof (state_get_world (Point.x (__position (self w)))
                  (Point.y (__position (self w))) w) as Hw.
    destruct (state_get _ _ w) as [[v|e] w']; simpl in *; by subst.
  - unfold draw, state, print, emit, liftW, enumerate. unfold_M. simpl.
    pose proof (draw_loop_world
                  (imap (λ i a, (Z.of_nat i, a)) (__state (self w))) "" w) as Hw.
    destruct (draw_loop _ _ w) as [[text|e] w']; simpl in *; by subst.
  - unfold draw, state, print, emit, liftW, enumerate. unfold_M. simpl.
    destruct (draw_loop _ _ w) as [[text|e] w']; simpl; eauto.
Qed.

(** X9. When [draw] raises.  On an automaton that the constructor
    returned, after any number of calls of [next]: if the ant's row is in
    the grid and its column is not ([x < H] and [W <= y]), [draw] raises
    [IndexError] and writes nothing; otherwise it returns and writes one
    text of [H * (W + 1) + 1] characters. *)
Theorem draw_raises_iff (σ σ' : store) g sp direction rnd w0 n t :
  new σ g sp direction rnd = (Ok w0, σ') →
  (Point.x (__position (self (steps n w0))) < __height (self w0) ∧
   __width (self w0) ≤ Point.y (__position (self (steps n w0))) ∧
   draw (Process (steps n w0) t) = (Raise IndexError, Process (steps n w0) t)) ∨
  ((Point.x (__position (self (steps n w0))) < __height (self w0) →
    Point.y (__position (self (steps n w0))) < __width (self w0)) ∧
   ∃ text,
     draw (Process (steps n w0) t) =
       (Ok tt, Process (steps n w0) (t ++ [Stdout text])) ∧
     length (chars text) =
       S (Z.to_nat (__height (self w0)) * S (Z.to_nat (__width (self w0))))).
Proof.
  intros Hnew.
  pose proof (new_inv _ _ _ _ _ _ _ Hnew) as Hinv0.
  destruct (steps_fields n w0 Hinv0) as (HH & HW & _).
  pose proof (steps_inv n w0 Hinv0) as Hinv.
  rewrite <- HH, <- HW.
  destruct (decide (Point.x (__position (self (steps n w0))) < __height (self (steps n w0)) ∧
                    __width (self (steps n w0)) ≤ Point.y (__position (self (steps n w0)))))
    as [[Hrow Hcol]|Hno].
  - left. split_and!; [done..|]. by apply draw_raise.
  - right. assert (Point.x (__position (self (steps n w0))) < __height (self (steps n w0)) →
                   Point.y (__position (self (steps n w0))) < __width (self (steps n w0)))
      as Hcol by lia.
    split; [done|].
    destruct (draw_ok _ t Hinv Hcol) as (text & Hdraw & Htext).
    exists text. split; [done|].
    rewrite Htext, length_app, frame_chars_length by done. simpl. lia.
Qed.

Lemma draw_raises_iff_witness :
  new store31 grid31 None (ADirection UP) 0 =
    (Ok (World (mkAnt 3 1 grid31 (Point.mk 0 1) UP) store31), store31) ∧
  ((Point.x (__position (self (steps 0 (World (mkAnt 3 1 grid31 (Point.mk 0 1) UP) store31))))
      < __height (self (World (mkAnt 3 1 grid31 (Point.mk 0 1) UP) store31)) ∧
    __width (self (World (mkAnt 3 1 grid31 (Point.mk 0 1) UP) store31))
      ≤ Point.y (__position (self (steps 0 (World (mkAnt 3 1 grid31 (Point.mk 0 1) UP) store31)))) ∧
    draw (Process (steps 0 (World (mkAnt 3 1 grid31 (Point.mk 0 1) UP) store31)) []) =
      (Raise IndexError,
       Process (steps 0 (World (mkAnt 3 1 grid31 (Point.mk 0 1) UP) store31)) [])) ∨
   ((Point.x (__position (self (steps 0 (World (mkAnt 3 1 grid31 (Point.mk 0 1) UP) store31))))
       < __height (self (World (mkAnt 3 1 grid31 (Point.mk 0 1) UP) store31)) →
     Point.y (__position (self (steps 0 (World (mkAnt 3 1 grid31 (Point.mk 0 1) UP) store31))))
       < __width (self (World (mkAnt 3 1 grid31 (Point.mk 0 1) UP) store31))) ∧
    ∃ text,
      draw (Process (steps 0 (World (mkAnt 3 1 grid31 (Point.mk 0 1) UP) store31)) []) =
        (Ok tt,
         Process (steps 0 (World (mkAnt 3 1 grid31 (Point.mk 0 1) UP) store31))
           ([] ++ [Stdout text])) ∧
      length (chars text) =
        S (Z.to_nat (__height (self (World (mkAnt 3 1 grid31 (Point.mk 0 1) UP) store31))) *
           S (Z.to_nat (__width (self (World (mkAnt 3 1 grid31 (Point.mk 0 1) UP) store31))))))).
Proof.
  assert (new store31 grid31 None (ADirection UP) 0 =
            (Ok (World (mkAnt 3 1 grid31 (Point.mk 0 1) UP) store31), store31))
    as Hnew by reflexivity.
  split; [exact Hnew|].
  exact (draw_raises_iff _ _ _ _ _ _ _ 0%nat [] Hnew).
Defined.

(** X10. What [draw] writes.  When [draw] returns on an automaton that the
    constructor returned, the text it writes has, at line [i] and column
    [j] (character [i * (W + 1) + j]), the glyph of cell [(i, j)]: ["x"]
    when the ant stands there, ["."] when the cell is on, a blank when it
    is off; every line ends with a line feed at column [W]. *)
Theorem draw_frame_cell (σ σ' : store) g sp direction rnd w0 n t text (i j : nat) b :
  new σ g sp direction rnd = (Ok w0, σ') →
  draw (Process (steps n w0) t) = (Ok tt, Process (steps n w0) (t ++ [Stdout text])) →
  cell (snapshot (steps n w0)) i j = Some b →
  chars text !! (i * S (Z.to_nat (__width (self w0))) + j)%nat =
    Some (if bool_decide (Z.of_nat i = Point.x (__position (self (steps n w0))) ∧
                          Z.of_nat j = Point.y (__position (self (steps n w0))))
          then "x"%char
          else if b then "."%char else " "%char) ∧
  chars text !! (i * S (Z.to_nat (__width (self w0))) + Z.to_nat (__width (self w0)))%nat =
    Some "010"%char.
Proof.
  intros Hnew Hdraw Hcell.
  pose proof (new_inv _ _ _ _ _ _ _ Hnew) as Hinv0.
  destruct (steps_fields n w0 Hinv0) as (HH & HW & _).
  pose proof (steps_inv n w0 Hinv0) as Hinv.
  rewrite <- HW. set (w := steps n w0) in *.
  assert (Point.x (__position (self w)) < __height (self w) →
          Point.y (__position (self w)) < __width (self w)) as Hcol.
  { intros Hrow. destruct (decide (Point.y (__position (self w)) < __width (self w)))
      as [|Hno]; [done|].
    rewrite (draw_raise w t Hinv Hrow) in Hdraw by lia. done. }
  destruct (draw_ok w t Hinv Hcol) as (text' & Hdraw' & Htext).
  rewrite Hdraw' in Hdraw. injection Hdraw as Heq.
  apply app_inj_1 in Heq as [_ Heq]; [|done]. injection Heq as ->.
  pose proof (frame_chars_length w Hinv) as Hlen.
  pose proof Hcell as Hcell'. apply cell_snapshot in Hcell' as (r & Hr & Hb).
  pose proof (inv_rows _ Hinv) as Hrows. rewrite Forall_forall in Hrows.
  pose proof (Hrows r (list_elem_of_lookup_2 _ _ _ Hr)) as Hrl. unfold len in Hrl.
  pose proof (lookup_lt_Some _ _ _ Hb) as Hj.
  pose proof (lookup_lt_Some _ _ _ Hr) as Hi.
  pose proof (inv_height _ Hinv) as HHg. unfold len in HHg.
  rewrite Htext. split.
  - rewrite lookup_app_l by nia.
    rewrite (frame_chars_cell w i j b Hinv Hcell). done.
  - rewrite lookup_app_l by nia.
    apply frame_chars_line_feed; [done|lia].
Qed.

Lemma draw_frame_cell_witness :
  new store3 grid3 (Some [1; 2]) (ADirection UP) 0 =
    (Ok (ant3 (Point.mk 1 2) UP), store3) ∧
  draw (Process (steps 0 (ant3 (Point.mk 1 2) UP)) []) =
    (Ok tt, Process (steps 0 (ant3 (Point.mk 1 2) UP))
              ([] ++ [Stdout ("   " +:+ nl +:+ "  x" +:+ nl +:+ "   " +:+ nl +:+ nl)])) ∧
  cell (snapshot (steps 0 (ant3 (Point.mk 1 2) UP))) 1 2 = Some false ∧
  chars ("   " +:+ nl +:+ "  x" +:+ nl +:+ "   " +:+ nl +:+ nl)
    !! (1 * S (Z.to_nat (__width (self (ant3 (Point.mk 1 2) UP)))) + 2)%nat =
    Some (if bool_decide
               (Z.of_nat 1 = Point.x (__position (self (steps 0 (ant3 (Point.mk 1 2) UP)))) ∧
                Z.of_nat 2 = Point.y (__position (self (steps 0 (ant3 (Point.mk 1 2) UP)))))
          then "x"%char
          else if false then "."%char else " "%char) ∧
  chars ("   " +:+ nl +:+ "  x" +:+ nl +:+ "   " +:+ nl +:+ nl)
    !! (1 * S (Z.to_nat (__width (self (ant3 (Point.mk 1 2) UP)))) +
        Z.to_nat (__width (self (ant3 (Point.mk 1 2) UP))))%nat =
    Some "010"%char.
Proof.
  assert (new store3 grid3 (Some [1; 2]) (ADirection UP) 0 =
            (Ok (ant3 (Point.mk 1 2) UP), store3)) as Hnew by reflexivity.
  assert (draw (Process (steps 0 (ant3 (Point.mk 1 2) UP)) []) =
    (Ok tt, Process (steps 0 (ant3 (Point.mk 1 2) UP))
              ([] ++ [Stdout ("   " +:+ nl +:+ "  x" +:+ nl +:+ "   " +:+ nl +:+ nl)])))
    as Hdraw by reflexivity.
  assert (cell (snapshot (steps 0 (ant3 (Point.mk 1 2) UP))) 1 2 = Some false)
    as Hcell by reflexivity.
  split; [exact Hnew|]. split; [exact Hdraw|]. split; [exact Hcell|].
  exact (draw_frame_cell _ _ _ _ _ _ _ 0%nat [] _ 1%nat 2%nat false Hnew Hdraw Hcell).
Defined.

Lemma line_chars_no_ant cells : "x"%char ∉ line_chars cells None.
Proof.
  unfold line_chars. rewrite elem_of_app, list_elem_of_fmap, list_elem_of_singleton.
  intros [(b & Hb & _)|?]; [by destruct b|done].
Qed.

(** X11. Whether the ant is drawn.  When [draw] returns on an automaton
    that the constructor returned, the text contains the ant's ["x"] exactly
    when the ant's row is in the grid ([x < H]); on a grid with fewer rows
    than columns the ant can be missing from the frame. *)
Theorem draw_shows_ant_iff (σ σ' : store) g sp direction rnd w0 n t text :
  new σ g sp direction rnd = (Ok w0, σ') →
  draw (Process (steps n w0) t) = (Ok tt, Process (steps n w0) (t ++ [Stdout text])) →
  "x"%char ∈ chars text ↔
  Point.x (__position (self (steps n w0))) < __height (self w0).
Proof.
  intros Hnew Hdraw.
  pose proof (new_inv _ _ _ _ _ _ _ Hnew) as Hinv0.
  destruct (steps_fields n w0 Hinv0) as (HH & HW & _).
  pose proof (steps_inv n w0 Hinv0) as Hinv.
  rewrite <- HH. set (w := steps n w0) in *.
  assert (Point.x (__position (self w)) < __height (self w) →
          Point.y (__position (self w)) < __width (self w)) as Hcol.
  { intros Hrow. destruct (decide (Point.y (__position (self w)) < __width (self w)))
      as [|Hno]; [done|].
    rewrite (draw_raise w t Hinv Hrow) in Hdraw by lia. done. }
  destruct (draw_ok w t Hinv Hcol) as (text' & Hdraw' & Htext).
  rewrite Hdraw' in Hdraw. injection Hdraw as Heq.
  apply app_inj_1 in Heq as [_ Heq]; [|done]. injection Heq as ->.
  pose proof (inv_x _ Hinv) as Hx. pose proof (inv_y _ Hinv) as Hy.
  rewrite Htext. split.
  - rewrite elem_of_app, list_elem_of_singleton.
    intros [Hin|?]; [|done].
    unfold frame_chars in Hin. apply list_elem_of_In, in_concat in Hin as (l & Hl & Hin).
    apply list_elem_of_In, list_elem_of_lookup in Hl as [i Hi].
    apply list_elem_of_In in Hin.
    rewrite list_lookup_imap in Hi.
    destruct (__state (self w) !! i) as [r|] eqn:Hr; [|done]. injection Hi as <-.
    case_bool_decide as Heq.
    + apply lookup_lt_Some in Hr. rewrite (inv_height _ Hinv). unfold len. lia.
    + by apply line_chars_no_ant in Hin.
  - intros Hrow. destruct (cell_in_range w Hinv Hrow (Hcol Hrow)) as [v Hv].
    apply elem_of_app. left.
    pose proof (frame_chars_cell w _ _ v Hinv Hv) as Hc.
    rewrite bool_decide_eq_true_2 in Hc by lia.
    by eapply list_elem_of_lookup_2.
Qed.

Lemma draw_shows_ant_iff_witness :
  new store13 grid13 None (ADirection UP) 0 =
    (Ok (World (mkAnt 1 3 grid13 (Point.mk 1 0) UP) store13), store13) ∧
  draw (Process (steps 0 (World (mkAnt 1 3 grid13 (Point.mk 1 0) UP) store13)) []) =
    (Ok tt, Process (steps 0 (World (mkAnt 1 3 grid13 (Point.mk 1 0) UP) store13))
              ([] ++ [Stdout ("   " +:+ nl +:+ nl)])) ∧
  ("x"%char ∈ chars ("   " +:+ nl +:+ nl) ↔
   Point.x (__position (self (steps 0 (World (mkAnt 1 3 grid13 (Point.mk 1 0) UP) store13))))
     < __height (self (World (mkAnt 1 3 grid13 (Point.mk 1 0) UP) store13))).
Proof.
  assert (new store13 grid13 None (ADirection UP) 0 =
            (Ok (World (mkAnt 1 3 grid13 (Point.mk 1 0) UP) store13), store13))
    as Hnew by reflexivity.
  assert (draw (Process (steps 0 (World (mkAnt 1 3 grid13 (Point.mk 1 0) UP) store13)) []) =
    (Ok tt, Process (steps 0 (World (mkAnt 1 3 grid13 (Point.mk 1 0) UP) store13))
              ([] ++ [Stdout ("   " +:+ nl +:+ nl)]))) as Hdraw by reflexivity.
  split; [exact Hnew|]. split; [exact Hdraw|].
  exact (draw_shows_ant_iff _ _ _ _ _ _ _ 0%nat [] _ Hnew Hdraw).
Defined.

(** * [run] *)

Lemma draw_ok_text w t :
  inv w →
  (Point.x (__position (self w)) < __height (self w) →
   Point.y (__position (self w)) < __width (self w)) →
  draw (Process w t) = (Ok tt, Process w (t ++ [Stdout (frame_text w)])).
Proof.
  intros Hinv Hcol. destruct (draw_ok w t Hinv Hcol) as (text & -> & Htext).
  unfold frame_text. rewrite <- Htext. unfold chars.
  by rewrite String.string_of_list_ascii_of_string.
Qed.

Lemma sleep_ok time_sleep delay s :
  time_sleep delay = Ok tt →
  sleep time_sleep delay s = (Ok tt, Process (obj s) (trace s ++ [Sleep delay])).
Proof. intros Hd. unfold sleep. by rewrite Hd. Qed.

(** One round of the loop that gets past [draw]: the four statements before
    [next] write their events, then [next] decides. *)
Lemma run_loop_cons time_sleep os_name delay clear k rest w t :
  time_sleep delay = Ok tt → inv w →
  (Point.x (__position (self w)) < __height (self w) →
   Point.y (__position (self w)) < __width (self w)) →
  run_loop time_sleep os_name delay clear (k :: rest) (Process w t) =
    match next w with
    | (Ok _, w') =>
        run_loop time_sleep os_name delay clear rest
          (Process w' (t ++ tick_events os_name delay clear k w))
    | (Raise e, w') =>
        (Raise e, Process w' (t ++ tick_events os_name delay clear k w))
    end.
Proof.
  intros Hd Hinv Hcol. cbn [run_loop]. unfold tick_events.
  unfold mbind, M_bind, bind.
  destruct clear.
  - unfold __clear, print, emit, modify. cbn [obj trace].
    rewrite draw_ok_text by done. rewrite sleep_ok by done. cbn [obj trace].
    unfold liftW. cbn [obj trace].
    destruct (next w) as [[[]|e] w']; simpl; rewrite <- !app_assoc; simpl;
      by rewrite <- ?app_assoc.
  - unfold print, emit, modify, mret, M_ret, ret. cbn [obj trace].
    rewrite draw_ok_text by done. rewrite sleep_ok by done. cbn [obj trace].
    unfold liftW. cbn [obj trace].
    destruct (next w) as [[[]|e] w']; simpl; rewrite <- !app_assoc; simpl;
      by rewrite <- ?app_assoc.
Qed.

(** One round of the loop that [draw] stops. *)
Lemma run_loop_draw_raise time_sleep os_name delay clear k rest w t :
  inv w →
  Point.x (__position (self w)) < __height (self w) →
  __width (self w) ≤ Point.y (__position (self w)) →
  obj (run_loop time_sleep os_name delay clear (k :: rest) (Process w t)).2 = w ∧
  (run_loop time_sleep os_name delay clear (k :: rest) (Process w t)).1 =
    Raise IndexError.
Proof.
  intros Hinv Hrow Hcol. cbn [run_loop].
  unfold mbind, M_bind, bind.
  destruct clear.
  - unfold __clear, print, emit, modify. cbn [obj trace].
    by rewrite draw_raise.
  - unfold print, emit, modify, mret, M_ret, ret. cbn [obj trace].
    by rewrite draw_raise.
Qed.

Lemma next_raise_column w :
  inv w →
  __width (self w) ≤ Point.y (__position (self w)) →
  next w = (Raise IndexError, w).
Proof.
  intros Hinv Hcol.
  destruct (next_cases w Hinv) as [(r & v & Hr & Hv & _)|[_ ->]]; [|done].
  pose proof (inv_rows _ Hinv) as Hrows. rewrite Forall_forall in Hrows.
  pose proof (Hrows r (list_elem_of_lookup_2 _ _ _ Hr)) as Hlen. unfold len in Hlen.
  apply lookup_lt_Some in Hv. pose proof (inv_y _ Hinv). lia.
Qed.

Lemma run_loop_world time_sleep os_name delay clear l w t :
  time_sleep delay = Ok tt → inv w →
  obj (run_loop time_sleep os_name delay clear l (Process w t)).2 = steps (length l) w.
Proof.
  intros Hd. revert w t. induction l as [|k l IH]; intros w t Hinv; [done|].
  destruct (decide (Point.x (__position (self w)) < __height (self w) ∧
                    __width (self w) ≤ Point.y (__position (self w))))
    as [[Hrow Hcol]|Hno].
  - rewrite (proj1 (run_loop_draw_raise time_sleep os_name delay clear k l w t
                      Hinv Hrow Hcol)).
    symmetry. apply steps_stuck. by rewrite next_raise_column.
  - rewrite run_loop_cons by (done || lia). simpl.
    destruct (next_cases w Hinv) as [(r & v & Hr & Hv & Hnext)|[_ Hnext]];
      rewrite Hnext; cbn [fst snd].
    + apply IH. pose proof (next_inv w Hinv) as Hinv'. by rewrite Hnext in Hinv'.
    + cbn [obj]. symmetry. apply steps_stuck. by rewrite Hnext.
Qed.

(** X12. [run] and [next].  When [time.sleep] returns for the delay and no
    keyboard interrupt is delivered, [run] leaves the automaton as [epoch]
    calls of [next] do, whether it returns or is stopped by an
    [IndexError]; when [epoch <= 0] it returns at once and writes
    nothing. *)
Theorem run_world (σ σ' : store) g sp direction rnd w0 n time_sleep os_name delay
    epoch clear t :
  new σ g sp direction rnd = (Ok w0, σ') →
  time_sleep delay = Ok tt →
  obj (run time_sleep os_name delay epoch clear (Process (steps n w0) t)).2 =
    steps (n + Z.to_nat epoch) w0 ∧
  (epoch ≤ 0 →
   run time_sleep os_name delay epoch clear (Process (steps n w0) t) =
     (Ok tt, Process (steps n w0) t)).
Proof.
  intros Hnew Hd.
  pose proof (steps_inv n w0 (new_inv _ _ _ _ _ _ _ Hnew)) as Hinv.
  split.
  - unfold run. rewrite run_loop_world by done.
    by rewrite length_seqZ, steps_add.
  - intros He. unfold run. by rewrite seqZ_nil.
Qed.

Lemma run_world_witness :
  new store13 grid13 (Some [0; 0]) (ADirection UP) 0 =
    (Ok (World (mkAnt 1 3 grid13 (Point.mk 0 0) UP) store13), store13) ∧
  (λ _ : Qc, Ok tt) 0%Qc = Ok tt ∧
  obj (run (λ _ : Qc, Ok tt) "posix" 0%Qc 5 true
         (Process (steps 0 (World (mkAnt 1 3 grid13 (Point.mk 0 0) UP) store13)) [])).2 =
    steps (0 + Z.to_nat 5) (World (mkAnt 1 3 grid13 (Point.mk 0 0) UP) store13) ∧
  (5 ≤ 0 →
   run (λ _ : Qc, Ok tt) "posix" 0%Qc 5 true
     (Process (steps 0 (World (mkAnt 1 3 grid13 (Point.mk 0 0) UP) store13)) []) =
     (Ok tt, Process (steps 0 (World (mkAnt 1 3 grid13 (Point.mk 0 0) UP) store13)) [])).
Proof.
  assert (new store13 grid13 (Some [0; 0]) (ADirection UP) 0 =
            (Ok (World (mkAnt 1 3 grid13 (Point.mk 0 0) UP) store13), store13))
    as Hnew by reflexivity.
  assert ((λ _ : Qc, Ok tt) 0%Qc = Ok tt) as Hd by reflexivity.
  split; [exact Hnew|]. split; [exact Hd|].
  exact (run_world _ _ _ _ _ _ _ 0%nat (λ _ : Qc, Ok tt) "posix" 0%Qc 5 true []
           Hnew Hd).
Defined.

Lemma next_ok_square w :
  inv w → __height (self w) = __width (self w) → next w = (Ok tt, (next w).2).
Proof.
  intros Hinv Hsq. destruct (square_cell w Hinv Hsq) as [v Hv].
  apply cell_snapshot in Hv as (r & Hr & Hv).
  destruct (next_cases w Hinv) as [(r' & v' & _ & _ & ->)|[Hnone _]]; [done|].
  rewrite (Hnone r Hr) in Hv. done.
Qed.

Lemma run_loop_square time_sleep os_name delay clear (n m : nat) w t :
  time_sleep delay = Ok tt → inv w → __height (self w) = __width (self w) →
  run_loop time_sleep os_name delay clear (seqZ (Z.of_nat m) (Z.of_nat n))
      (Process w t) =
    (Ok tt,
     Process (steps n w)
       (t ++ concat ((λ k, tick_events os_name delay clear (Z.of_nat (m + k)) (steps k w))
                      <$> seq 0 n))).
Proof.
  intros Hd. revert m w t. induction n as [|n IH]; intros m w t Hinv Hsq.
  { rewrite seqZ_nil by done. simpl. by rewrite app_nil_r. }
  rewrite seqZ_cons by lia.
  replace (Z.succ (Z.of_nat m)) with (Z.of_nat (S m)) by lia.
  replace (Z.pred (Z.of_nat (S n))) with (Z.of_nat n) by lia.
  rewrite run_loop_cons; [|done|done|].
  2:{ intros _. pose proof (inv_y _ Hinv). lia. }
  rewrite (next_ok_square w Hinv Hsq).
  destruct (next_fields w Hinv) as (HH & HW & _).
  rewrite IH; [|by apply next_inv|congruence].
  cbn [steps]. do 2 f_equal.
  rewrite <- app_assoc. f_equal.
  cbn [seq fmap list_fmap concat]. rewrite Nat.add_0_r. f_equal.
  rewrite <- fmap_S_seq, <- list_fmap_compose. f_equal.
  apply list_fmap_ext. intros i k _. simpl.
  by replace (m + S k)%nat with (S (m + k)) by lia.
Qed.

(** X13. What [run] writes on a square grid.  When [time.sleep] returns
    for the delay and no keyboard interrupt is delivered, [run] on a
    square automaton returns after [epoch] rounds; round [k] (from 0)
    writes the command that clears the screen if asked for, the header of
    epoch [k + 1], the frame of the automaton as [k] calls of [next] have
    left it, and the pause; the automaton is left as [epoch] calls of
    [next] leave it. *)
Theorem run_square (σ σ' : store) g sp direction rnd w0 n time_sleep os_name delay
    epoch clear t :
  new σ g sp direction rnd = (Ok w0, σ') →
  __height (self w0) = __width (self w0) →
  time_sleep delay = Ok tt →
  run time_sleep os_name delay epoch clear (Process (steps n w0) t) =
    (Ok tt,
     Process (steps (n + Z.to_nat epoch) w0)
       (t ++ concat ((λ k, tick_events os_name delay clear (Z.of_nat k) (steps (n + k) w0))
                      <$> seq 0 (Z.to_nat epoch)))).
Proof.
  intros Hnew Hsq Hd.
  pose proof (new_inv _ _ _ _ _ _ _ Hnew) as Hinv0.
  pose proof (steps_inv n w0 Hinv0) as Hinv.
  destruct (steps_fields n w0 Hinv0) as (HH & HW & _).
  unfold run.
  assert (seqZ 0 epoch = seqZ (Z.of_nat 0) (Z.of_nat (Z.to_nat epoch))) as ->.
  { unfold seqZ. by rewrite Nat2Z.id. }
  rewrite run_loop_square; [|done|done|congruence].
  rewrite <- steps_add. do 2 f_equal. f_equal. f_equal.
  apply list_fmap_ext. intros i k _. simpl. by rewrite steps_add.
Qed.

Lemma run_square_witness :
  new store3 grid3 None (ADirection UP) 0 =
    (Ok (ant3 (Point.mk 1 1) UP), store3) ∧
  __height (self (ant3 (Point.mk 1 1) UP)) = __width (self (ant3 (Point.mk 1 1) UP)) ∧
  (λ _ : Qc, Ok tt) 1%Qc = Ok tt ∧
  run (λ _ : Qc, Ok tt) "nt" 1%Qc 2 true (Process (steps 1 (ant3 (Point.mk 1 1) UP)) []) =
    (Ok tt,
     Process (steps (1 + Z.to_nat 2) (ant3 (Point.mk 1 1) UP))
       ([] ++ concat ((λ k, tick_events "nt" 1%Qc true (Z.of_nat k)
                              (steps (1 + k) (ant3 (Point.mk 1 1) UP)))
                      <$> seq 0 (Z.to_nat 2)))).
Proof.
  assert (new store3 grid3 None (ADirection UP) 0 =
            (Ok (ant3 (Point.mk 1 1) UP), store3)) as Hnew by reflexivity.
  assert (__height (self (ant3 (Point.mk 1 1) UP)) =
          __width (self (ant3 (Point.mk 1 1) UP))) as Hsq by reflexivity.
  assert ((λ _ : Qc, Ok tt) 1%Qc = Ok tt) as Hd by reflexivity.
  split; [exact Hnew|]. split; [exact Hsq|]. split; [exact Hd|].
  exact (run_square _ _ _ _ _ _ _ 1%nat (λ _ : Qc, Ok tt) "nt" 1%Qc 2 true []
           Hnew Hsq Hd).
Defined.



(** * The script *)

Lemma fill_row_spec row js (σ : store) cells :
  σ !! row = Some cells →
  fill_row row js σ = (Ok tt, <[row := cells ++ replicate (length js) false]> σ).
Proof.
  revert σ cells. induction js as [|j js IH]; intros σ cells Hrow.
  - simpl. unfold_M. rewrite app_nil_r. by rewrite insert_id.
  - cbn [fill_row]. unfold list_append. unfold_M.
    rewrite (IH _ (cells ++ [false])).
    + rewrite insert_insert_eq. rewrite <- app_assoc. done.
    + rewrite lookup_insert_eq. by rewrite (lookup_total_correct _ _ _ Hrow).
Qed.

Lemma list_new_spec (σ : store) :
  list_new σ = (Ok (fresh (dom σ)), <[fresh (dom σ) := []]> σ) ∧
  fresh (dom σ) ∉ dom σ.
Proof. split; [done|]. apply is_fresh. Qed.

(** The rows that the outer loop makes: as many as rounds, new and
    pairwise distinct objects, each of [n] cells that are off; what was in
    the store before is not touched. *)
Lemma build_grid_spec n (range_i : list Z) grid (σ : store) :
  ∃ rows σ',
    build_grid n range_i grid σ = (Ok (grid ++ rows), σ') ∧
    length rows = length range_i ∧
    NoDup rows ∧
    (∀ r, r ∈ rows → r ∉ dom σ) ∧
    (∀ r, r ∈ rows → σ' !! r = Some (replicate (Z.to_nat n) false)) ∧
    (∀ r, r ∈ dom σ → σ' !! r = σ !! r).
Proof.
  revert grid σ. induction range_i as [|i range_i IH]; intros grid σ.
  { exists [], σ. simpl. unfold_M. rewrite app_nil_r.
    split_and!; try done; [constructor|intros r Hr; by apply elem_of_nil in Hr..]. }
  cbn [build_grid]. unfold mbind, M_bind, bind.
  destruct (list_new_spec σ) as [-> Hfresh].
  set (r := fresh (dom σ)) in *.
  rewrite (fill_row_spec r _ _ []) by apply lookup_insert_eq.
  rewrite insert_insert_eq, length_seqZ. simpl app.
  remember (<[r := replicate (Z.to_nat n) false]> σ) as σ1 eqn:Hσ1.
  destruct (IH (grid ++ [r]) σ1) as (rows & σ' & -> & Hlen & Hnd & Hnew & Hrows & Hold).
  exists (r :: rows), σ'. rewrite <- app_assoc. simpl.
  assert (dom σ1 = {[r]} ∪ dom σ) as Hdom by (subst σ1; apply dom_insert_L).
  assert (r ∈ dom σ1) as Hr1 by (rewrite Hdom; apply elem_of_union_l, elem_of_singleton_2; done).
  split_and!.
  - done.
  - by rewrite Hlen.
  - constructor; [|done]. intros Hin. by apply Hnew in Hin.
  - intros r' [->|Hin]%elem_of_cons; [done|].
    apply Hnew in Hin. rewrite Hdom in Hin. intros Hr'. apply Hin.
    by apply elem_of_union_r.
  - intros r' [->|Hin]%elem_of_cons; [|by apply Hrows].
    rewrite (Hold r Hr1). subst σ1. apply lookup_insert_eq.
  - intros r' Hr'. rewrite Hold by (rewrite Hdom; by apply elem_of_union_r).
    subst σ1. apply lookup_insert_ne. intros <-. done.
Qed.

(** X15. The grid of the script.  The two loops that build the grid make,
    for any store, [k] new list objects, pairwise distinct and distinct
    from every object of the store, each holding [n] cells that are off;
    the objects that were in the store are not changed. *)
Theorem build_grid_fresh n k (σ : store) :
  ∃ g σ1,
    build_grid n (seqZ 0 k) [] σ = (Ok g, σ1) ∧
    length g = Z.to_nat k ∧
    NoDup g ∧
    (∀ r, r ∈ g → r ∉ dom σ) ∧
    matrix σ1 g = replicate (Z.to_nat k) (replicate (Z.to_nat n) false) ∧
    (∀ r, r ∈ dom σ → σ1 !! r = σ !! r).
Proof.
  destruct (build_grid_spec n (seqZ 0 k) [] σ)
    as (g & σ1 & Hbuild & Hlen & Hnd & Hnew & Hrows & Hold).
  rewrite length_seqZ in Hlen.
  exists g, σ1. split_and!; try done.
  rewrite <- Hlen. clear Hlen Hnd Hnew Hbuild.
  unfold matrix. induction g as [|r g IH]; [done|].
  simpl. f_equal.
  - apply lookup_total_correct, Hrows, list_elem_of_here.
  - apply IH. intros r' Hr'. apply Hrows. by apply list_elem_of_further.
Qed.

(** X16. The script without a usable grid size.  When the option is
    absent or zero the script raises [ValueError] with the message that the
    parameter is required; when it is negative the grid has no row and it
    is the constructor that raises, with its own message.  In each case
    nothing is written, no automaton exists and the store is unchanged. *)
Theorem main_rejects_grid_size time_sleep a os_name rnd (σ : store) :
  match grid_size a with Some n => n ≤ 0 | None => True end →
  main time_sleep a os_name rnd σ =
    Ending
      (Raise (ValueError
         match grid_size a with
         | Some n =>
             if bool_decide (n < 0)
             then "`initial_state` must contain at least one nested list."
             else "`grid_size` parameter required"
         | None => "`grid_size` parameter required"
         end))
      σ None [].
Proof.
  unfold main. destruct (grid_size a) as [n|]; [|done].
  intros Hn. case_bool_decide as H0.
  - subst n. by rewrite bool_decide_eq_false_2 by lia.
  - rewrite bool_decide_eq_true_2 by lia.
    rewrite seqZ_nil by lia. cbn [build_grid]. unfold mret, M_ret, ret.
    unfold new. by rewrite init_unfold.
Qed.

Lemma main_rejects_grid_size_witness :
  match grid_size (Args (Some (-4)) 0%Qc 111) with Some n => n ≤ 0 | None => True end ∧
  main (λ _ : Qc, Ok tt) (Args (Some (-4)) 0%Qc 111) "posix" 0 store3 =
    Ending
      (Raise (ValueError
         match grid_size (Args (Some (-4)) 0%Qc 111) with
         | Some n =>
             if bool_decide (n < 0)
             then "`initial_state` must contain at least one nested list."
             else "`grid_size` parameter required"
         | None => "`grid_size` parameter required"
         end))
      store3 None [].
Proof.
  assert (match grid_size (Args (Some (-4)) 0%Qc 111) with
          | Some n => n ≤ 0 | None => True end) as Hn by (simpl; lia).
  split; [exact Hn|].
  exact (main_rejects_grid_size (λ _ : Qc, Ok tt) (Args (Some (-4)) 0%Qc 111)
           "posix" 0%nat store3 Hn).
Defined.

(** X17. The script with a positive grid size.  When [time.sleep] returns
    for the delay and no keyboard interrupt is delivered, the script raises
    nothing: it builds an all-off grid of [n] rows of [n] cells, puts the
    ant at the centre [(n/2, n/2)] heading in the drawn direction, runs the
    [epoch] rounds of [run] and ends with the automaton as [epoch] calls of
    [next] leave it. *)
Theorem main_completes time_sleep a os_name rnd (σ : store) n :
  grid_size a = Some n → 0 < n → time_sleep (delay a) = Ok tt →
  ∃ g σ1 w0,
    build_grid n (seqZ 0 n) [] σ = (Ok g, σ1) ∧
    matrix σ1 g = replicate (Z.to_nat n) (replicate (Z.to_nat n) false) ∧
    w0 = World (mkAnt n n g (Point.mk (n `quot` 2) (n `quot` 2))
                  (nth (rnd `mod` 4)%nat DIRECTION_CHOICES UP)) σ1 ∧
    status (main time_sleep a os_name rnd σ) = Ok tt ∧
    ant (main time_sleep a os_name rnd σ) =
      Some (self (steps (Z.to_nat (epoch a)) w0)) ∧
    memory (main time_sleep a os_name rnd σ) =
      heap (steps (Z.to_nat (epoch a)) w0) ∧
    output (main time_sleep a os_name rnd σ) =
      concat ((λ k, tick_events os_name (delay a) true (Z.of_nat k) (steps k w0))
                <$> seq 0 (Z.to_nat (epoch a))).
Proof.
  intros Hgs Hn Hd.
  destruct (build_grid_fresh n n σ) as (g & σ1 & Hbuild & Hlen & Hnd & Hnew & Hm & Hold).
  exists g, σ1. eexists. split; [done|]. split; [done|]. split; [reflexivity|].
  assert (len g = n) as Hleng by (unfold len; lia).
  destruct g as [|r0 g']; [simpl in Hlen; lia|].
  assert (σ1 !!! r0 = replicate (Z.to_nat n) false) as Hr0.
  { unfold matrix in Hm. destruct (Z.to_nat n); simpl in Hm; [done|]. by injection Hm. }
  assert (len (σ1 !!! r0) = n) as HW.
  { rewrite Hr0. unfold len. rewrite length_replicate. lia. }
  assert (Forall (λ r, len (σ1 !!! r) = n) (r0 :: g')) as HF.
  { apply Forall_forall. intros r Hr.
    apply list_elem_of_lookup in Hr as [i Hi].
    pose proof (f_equal (.!! i) Hm) as Hmi. cbv beta in Hmi.
    unfold matrix in Hmi. rewrite list_lookup_fmap, Hi in Hmi. simpl in Hmi.
    symmetry in Hmi. apply lookup_replicate in Hmi as [Hmi _].
    rewrite Hmi. unfold len. rewrite length_replicate. lia. }
  set (w0 := World (mkAnt n n (r0 :: g') (Point.mk (n `quot` 2) (n `quot` 2))
                      (nth (rnd `mod` 4)%nat DIRECTION_CHOICES UP)) σ1).
  assert (new σ1 (r0 :: g') None NoDirection rnd = (Ok w0, σ1)) as Hnew0.
  { unfold new. rewrite init_unfold. cbv zeta. rewrite HW.
    rewrite bool_decide_eq_false_2 by lia.
    rewrite bool_decide_eq_true_2 by done.
    unfold start_point. simpl. by rewrite Hleng. }
  pose proof (run_square _ _ _ _ _ _ _ 0%nat time_sleep os_name (delay a) (epoch a)
                true [] Hnew0 eq_refl Hd) as Hrun.
  cbn [steps] in Hrun.
  unfold main. rewrite Hgs. rewrite bool_decide_eq_false_2 by lia.
  rewrite Hbuild, Hnew0, Hrun. simpl. done.
Qed.

Lemma main_completes_witness :
  grid_size (Args (Some 2) 0%Qc 3) = Some 2 ∧
  0 < 2 ∧
  (λ _ : Qc, Ok tt) (delay (Args (Some 2) 0%Qc 3)) = Ok tt ∧
  ∃ g σ1 w0,
    build_grid 2 (seqZ 0 2) [] ∅ = (Ok g, σ1) ∧
    matrix σ1 g = replicate (Z.to_nat 2) (replicate (Z.to_nat 2) false) ∧
    w0 = World (mkAnt 2 2 g (Point.mk (2 `quot` 2) (2 `quot` 2))
                  (nth (7 `mod` 4)%nat DIRECTION_CHOICES UP)) σ1 ∧
    status (main (λ _ : Qc, Ok tt) (Args (Some 2) 0%Qc 3) "nt" 7 ∅) = Ok tt ∧
    ant (main (λ _ : Qc, Ok tt) (Args (Some 2) 0%Qc 3) "nt" 7 ∅) =
      Some (self (steps (Z.to_nat (epoch (Args (Some 2) 0%Qc 3))) w0)) ∧
    memory (main (λ _ : Qc, Ok tt) (Args (Some 2) 0%Qc 3) "nt" 7 ∅) =
      heap (steps (Z.to_nat (epoch (Args (Some 2) 0%Qc 3))) w0) ∧
    output (main (λ _ : Qc, Ok tt) (Args (Some 2) 0%Qc 3) "nt" 7 ∅) =
      concat ((λ k, tick_events "nt" (delay (Args (Some 2) 0%Qc 3)) true (Z.of_nat k)
                      (steps k w0))
                <$> seq 0 (Z.to_nat (epoch (Args (Some 2) 0%Qc 3)))).
Proof.
  assert (grid_size (Args (Some 2) 0%Qc 3) = Some 2) as Hgs by reflexivity.
  assert (0 < 2) as Hn by lia.
  assert ((λ _ : Qc, Ok tt) (delay (Args (Some 2) 0%Qc 3)) = Ok tt) as Hd
    by reflexivity.
  split; [exact Hgs|]. split; [exact Hn|]. split; [exact Hd|].
  exact (main_completes (λ _ : Qc, Ok tt) (Args (Some 2) 0%Qc 3) "nt" 7%nat ∅ 2
           Hgs Hn Hd).
Defined.

(** * Further properties of the accessors and of [next] *)

(** X19. What [position_and_direction] gives.  On an automaton that the
    constructor returned, after any number of calls of [next]: when the
    ant's cell exists, the result is the position, the name of the
    direction among ["UP"], ["RIGHT"], ["DOWN"], ["LEFT"] (never the empty
    text) and the value of the cell; when it does not, the property raises
    [IndexError]. *)
Theorem position_and_direction_outcome (σ σ' : store) g sp direction rnd w0 n :
  new σ g sp direction rnd = (Ok w0, σ') →
  (∃ name v,
     cell (snapshot (steps n w0))
       (Z.to_nat (Point.x (__position (self (steps n w0)))))
       (Z.to_nat (Point.y (__position (self (steps n w0))))) = Some v ∧
     position_and_direction (steps n w0) =
       (Ok (__position (self (steps n w0)), name, v), steps n w0) ∧
     ((__direction (self (steps n w0)) = UP ∧ name = "UP") ∨
      (__direction (self (steps n w0)) = RIGHT ∧ name = "RIGHT") ∨
      (__direction (self (steps n w0)) = DOWN ∧ name = "DOWN") ∨
      (__direction (self (steps n w0)) = LEFT ∧ name = "LEFT"))) ∨
  (cell (snapshot (steps n w0))
     (Z.to_nat (Point.x (__position (self (steps n w0)))))
     (Z.to_nat (Point.y (__position (self (steps n w0))))) = None ∧
   position_and_direction (steps n w0) = (Raise IndexError, steps n w0)).
Proof.
  intros Hnew.
  pose proof (steps_inv n w0 (new_inv _ _ _ _ _ _ _ Hnew)) as Hinv.
  set (w := steps n w0) in *.
  destruct (cell (snapshot w) _ _) as [v|] eqn:Hcell.
  - left. destruct (position_and_direction_cell w v Hinv Hcell) as (name & Hpd & Hname).
    exists name, v. done.
  - right. split; [done|].
    pose proof (inv_x _ Hinv) as Hx. pose proof (inv_y _ Hinv) as Hy.
    unfold position_and_direction. unfold_M. cbn beta iota.
    rewrite state_get_nonneg by lia.
    unfold cell in Hcell. rewrite snapshot_lookup in Hcell.
    destruct (__state (self w) !! _) as [r|]; simpl in Hcell; [|done].
    by rewrite Hcell.
Qed.

Lemma position_and_direction_outcome_witness :
  new store3 grid3 (Some [2; 0]) (ADirection DOWN) 0 =
    (Ok (ant3 (Point.mk 2 0) DOWN), store3) ∧
  ((∃ name v,
     cell (snapshot (steps 1 (ant3 (Point.mk 2 0) DOWN)))
       (Z.to_nat (Point.x (__position (self (steps 1 (ant3 (Point.mk 2 0) DOWN))))))
       (Z.to_nat (Point.y (__position (self (steps 1 (ant3 (Point.mk 2 0) DOWN)))))) = Some v ∧
     position_and_direction (steps 1 (ant3 (Point.mk 2 0) DOWN)) =
       (Ok (__position (self (steps 1 (ant3 (Point.mk 2 0) DOWN))), name, v),
        steps 1 (ant3 (Point.mk 2 0) DOWN)) ∧
     ((__direction (self (steps 1 (ant3 (Point.mk 2 0) DOWN))) = UP ∧ name = "UP") ∨
      (__direction (self (steps 1 (ant3 (Point.mk 2 0) DOWN))) = RIGHT ∧ name = "RIGHT") ∨
      (__direction (self (steps 1 (ant3 (Point.mk 2 0) DOWN))) = DOWN ∧ name = "DOWN") ∨
      (__direction (self (steps 1 (ant3 (Point.mk 2 0) DOWN))) = LEFT ∧ name = "LEFT"))) ∨
   (cell (snapshot (steps 1 (ant3 (Point.mk 2 0) DOWN)))
      (Z.to_nat (Point.x (__position (self (steps 1 (ant3 (Point.mk 2 0) DOWN))))))
      (Z.to_nat (Point.y (__position (self (steps 1 (ant3 (Point.mk 2 0) DOWN)))))) = None ∧
    position_and_direction (steps 1 (ant3 (Point.mk 2 0) DOWN)) =
      (Raise IndexError, steps 1 (ant3 (Point.mk 2 0) DOWN)))).
Proof.
  assert (new store3 grid3 (Some [2; 0]) (ADirection DOWN) 0 =
            (Ok (ant3 (Point.mk 2 0) DOWN), store3)) as Hnew by reflexivity.
  split; [exact Hnew|].
  exact (position_and_direction_outcome _ _ _ _ _ _ _ 1%nat Hnew).
Defined.

Lemma mod_small_eq a b d W :
  0 ≤ a < W → 0 ≤ b < W → (a + d) `mod` W = (b + d) `mod` W → a = b.
Proof.
  intros Ha Hb Heq.
  assert ((a + d - (b + d)) `mod` W = 0) as Hdiff.
  { rewrite Zminus_mod, Heq, Z.sub_diag. apply Z.mod_0_l. lia. }
  replace (a + d - (b + d)) with (a - b) in Hdiff by lia.
  apply Z.mod_divide in Hdiff; [|lia]. destruct Hdiff as [k Hk].
  assert (k = 0) by nia. lia.
Qed.

Lemma turn_inj (v1 v2 : bool) d1 d2 :
  v1 = v2 →
  (if v1 then turn_on d1 else turn_off d1) = (if v2 then turn_on d2 else turn_off d2) →
  d1 = d2.
Proof.
  intros <-. destruct d1 as [x1 y1], d2 as [x2 y2].
  destruct v1; unfold turn_on, turn_off; simpl; intros [= ? ?]; f_equal; lia.
Qed.

(** [moved] determines the world it comes from. *)
Lemma moved_inj w1 w2 r1 r2 v1 v2 :
  inv w1 → inv w2 →
  __state (self w1) !! Z.to_nat (Point.x (__position (self w1))) = Some r1 →
  (heap w1 !!! r1) !! Z.to_nat (Point.y (__position (self w1))) = Some v1 →
  __state (self w2) !! Z.to_nat (Point.x (__position (self w2))) = Some r2 →
  (heap w2 !!! r2) !! Z.to_nat (Point.y (__position (self w2))) = Some v2 →
  moved w1 r1 v1 = moved w2 r2 v2 →
  w1 = w2.
Proof.
  intros Hinv1 Hinv2 Hr1 Hv1 Hr2 Hv2 Heq.
  destruct w1 as [[H1 W1 g1 [x1 y1] d1] σ1], w2 as [[H2 W2 g2 [x2 y2] d2] σ2].
  pose proof (inv_x _ Hinv1) as Hx1. pose proof (inv_y _ Hinv1) as Hy1.
  pose proof (inv_x _ Hinv2) as Hx2. pose proof (inv_y _ Hinv2) as Hy2.
  unfold moved in Heq. simpl in *.
  injection Heq as -> -> -> Hx Hy Hd Hσ.
  rewrite Hd in Hx, Hy.
  apply mod_small_eq in Hx; [|done..]. apply mod_small_eq in Hy; [|done..].
  subst x2 y2. assert (r1 = r2) as <- by congruence.
  pose proof (f_equal (λ m : store, m !! r1) Hσ) as Hrow. cbv beta in Hrow.
  rewrite !lookup_insert_eq in Hrow. injection Hrow as Hrow.
  assert (v1 = v2) as <-.
  { pose proof (f_equal (λ l : list bool, l !! Z.to_nat y1) Hrow) as Hy'. cbv beta in Hy'.
    rewrite !list_lookup_insert_eq in Hy' by (by eapply lookup_lt_Some).
    injection Hy' as Hy'. by destruct v1, v2. }
  apply turn_inj in Hd; [|done]. subst d2.
  assert (σ1 !!! r1 = σ2 !!! r1) as Hrows.
  { apply list_eq. intros j. destruct (decide (j = Z.to_nat y1)) as [->|Hne].
    - by rewrite Hv1, Hv2.
    - pose proof (f_equal (λ l : list bool, l !! j) Hrow) as Hj. cbv beta in Hj.
      by rewrite !list_lookup_insert_ne in Hj by done. }
  do 2 f_equal. apply map_eq. intros k.
  destruct (decide (k = r1)) as [->|Hne].
  - assert (∀ σ : store, ∀ v, (σ !!! r1) !! Z.to_nat y1 = Some v →
              σ !! r1 = Some (σ !!! r1)) as Hsome.
    { intros σ v Hv. rewrite lookup_total_alt in *.
      destruct (σ !! r1); [done|]. by destruct (Z.to_nat y1). }
    rewrite (Hsome σ1 v1 Hv1), (Hsome σ2 v1 Hv2). by rewrite Hrows.
  - pose proof (f_equal (λ m : store, m !! k) Hσ) as Hk. cbv beta in Hk.
    by rewrite !lookup_insert_ne in Hk by done.
Qed.

(** X20. The step can be undone: two automata that the constructor
    returned, each after some calls of [next], for which [next] returns and
    leaves the same object and store, were the same object and store
    before the call. *)
Theorem next_injective (σ1 σ1' σ2 σ2' : store) g1 g2 sp1 sp2 direction1 direction2
    rnd1 rnd2 w1 w2 n1 n2 w' :
  new σ1 g1 sp1 direction1 rnd1 = (Ok w1, σ1') →
  new σ2 g2 sp2 direction2 rnd2 = (Ok w2, σ2') →
  next (steps n1 w1) = (Ok tt, w') →
  next (steps n2 w2) = (Ok tt, w') →
  steps n1 w1 = steps n2 w2.
Proof.
  intros Hnew1 Hnew2 Hnext1 Hnext2.
  pose proof (steps_inv n1 w1 (new_inv _ _ _ _ _ _ _ Hnew1)) as Hinv1.
  pose proof (steps_inv n2 w2 (new_inv _ _ _ _ _ _ _ Hnew2)) as Hinv2.
  destruct (next_cases _ Hinv1) as [(r1 & v1 & Hr1 & Hv1 & H1)|[_ H1]];
    [|congruence].
  destruct (next_cases _ Hinv2) as [(r2 & v2 & Hr2 & Hv2 & H2)|[_ H2]];
    [|congruence].
  rewrite Hnext1 in H1. rewrite Hnext2 in H2.
  injection H1 as H1. injection H2 as H2.
  apply (moved_inj _ _ r1 r2 v1 v2); try done. congruence.
Qed.

Lemma next_injective_witness :
  new store3 grid3 (Some [0; 0]) (ADirection UP) 0 =
    (Ok (ant3 (Point.mk 0 0) UP), store3) ∧
  new store3 grid3 (Some [3; -3]) (ADirection UP) 5 =
    (Ok (ant3 (Point.mk 0 0) UP), store3) ∧
  next (steps 2 (ant3 (Point.mk 0 0) UP)) =
    (Ok tt, steps 3 (ant3 (Point.mk 0 0) UP)) ∧
  next (steps 2 (ant3 (Point.mk 0 0) UP)) =
    (Ok tt, steps 3 (ant3 (Point.mk 0 0) UP)) ∧
  steps 2 (ant3 (Point.mk 0 0) UP) = steps 2 (ant3 (Point.mk 0 0) UP).
Proof.
  assert (new store3 grid3 (Some [0; 0]) (ADirection UP) 0 =
            (Ok (ant3 (Point.mk 0 0) UP), store3)) as Hnew1 by reflexivity.
  assert (new store3 grid3 (Some [3; -3]) (ADirection UP) 5 =
            (Ok (ant3 (Point.mk 0 0) UP), store3)) as Hnew2 by reflexivity.
  assert (next (steps 2 (ant3 (Point.mk 0 0) UP)) =
            (Ok tt, steps 3 (ant3 (Point.mk 0 0) UP))) as Hnext by reflexivity.
  split; [exact Hnew1|]. split; [exact Hnew2|]. split; [exact Hnext|].
  split; [exact Hnext|].
  exact (next_injective _ _ _ _ _ _ _ _ _ _ _ _ _ _ 2%nat 2%nat _
           Hnew1 Hnew2 Hnext Hnext).
Defined.

Lemma next_transition_witness :
  new store3 grid3 None (ADirection LEFT) 0 =
    (Ok (ant3 (Point.mk 1 1) LEFT), store3) ∧
  cell (snapshot (steps 4 (ant3 (Point.mk 1 1) LEFT)))
       (Z.to_nat (Point.x (__position (self (steps 4 (ant3 (Point.mk 1 1) LEFT))))))
       (Z.to_nat (Point.y (__position (self (steps 4 (ant3 (Point.mk 1 1) LEFT))))))
    = Some true ∧
  ∃ d',
    d' = (if true
          then Direction.mk
                 (Direction.y (__direction (self (steps 4 (ant3 (Point.mk 1 1) LEFT)))))
                 (- Direction.x (__direction (self (steps 4 (ant3 (Point.mk 1 1) LEFT)))))
          else Direction.mk
                 (- Direction.y (__direction (self (steps 4 (ant3 (Point.mk 1 1) LEFT)))))
                 (Direction.x (__direction (self (steps 4 (ant3 (Point.mk 1 1) LEFT)))))) ∧
    (next (steps 4 (ant3 (Point.mk 1 1) LEFT))).1 = Ok tt ∧
    __direction (self (next (steps 4 (ant3 (Point.mk 1 1) LEFT))).2) = d' ∧
    cell (snapshot (next (steps 4 (ant3 (Point.mk 1 1) LEFT))).2)
         (Z.to_nat (Point.x (__position (self (steps 4 (ant3 (Point.mk 1 1) LEFT))))))
         (Z.to_nat (Point.y (__position (self (steps 4 (ant3 (Point.mk 1 1) LEFT))))))
      = Some (negb true) ∧
    __position (self (next (steps 4 (ant3 (Point.mk 1 1) LEFT))).2) =
      Point.mk
        ((Point.x (__position (self (steps 4 (ant3 (Point.mk 1 1) LEFT)))) + Direction.x d')
           `mod` __width (self (ant3 (Point.mk 1 1) LEFT)))
        ((Point.y (__position (self (steps 4 (ant3 (Point.mk 1 1) LEFT)))) + Direction.y d')
           `mod` __height (self (ant3 (Point.mk 1 1) LEFT))).
Proof.
  assert (new store3 grid3 None (ADirection LEFT) 0 =
            (Ok (ant3 (Point.mk 1 1) LEFT), store3)) as Hnew by reflexivity.
  assert (cell (snapshot (steps 4 (ant3 (Point.mk 1 1) LEFT)))
       (Z.to_nat (Point.x (__position (self (steps 4 (ant3 (Point.mk 1 1) LEFT))))))
       (Z.to_nat (Point.y (__position (self (steps 4 (ant3 (Point.mk 1 1) LEFT))))))
    = Some true) as Hcell by reflexivity.
  split; [exact Hnew|]. split; [exact Hcell|].
  exact (next_transition _ _ _ _ _ _ _ 4%nat true Hnew Hcell).
Defined.

Lemma square_safe_witness :
  new store3 grid3 None (ADirection RIGHT) 0 =
    (Ok (ant3 (Point.mk 1 1) RIGHT), store3) ∧
  __height (self (ant3 (Point.mk 1 1) RIGHT)) =
    __width (self (ant3 (Point.mk 1 1) RIGHT)) ∧
  (next (steps 20 (ant3 (Point.mk 1 1) RIGHT))).1 = Ok tt ∧
  ∃ name v,
    position_and_direction (steps 20 (ant3 (Point.mk 1 1) RIGHT)) =
      (Ok (__position (self (steps 20 (ant3 (Point.mk 1 1) RIGHT))), name, v),
       steps 20 (ant3 (Point.mk 1 1) RIGHT)) ∧
    name ∈ ["UP"; "RIGHT"; "DOWN"; "LEFT"] ∧
    cell (snapshot (steps 20 (ant3 (Point.mk 1 1) RIGHT)))
         (Z.to_nat (Point.x (__position (self (steps 20 (ant3 (Point.mk 1 1) RIGHT))))))
         (Z.to_nat (Point.y (__position (self (steps 20 (ant3 (Point.mk 1 1) RIGHT))))))
      = Some v.
Proof.
  assert (new store3 grid3 None (ADirection RIGHT) 0 =
            (Ok (ant3 (Point.mk 1 1) RIGHT), store3)) as Hnew by reflexivity.
  assert (__height (self (ant3 (Point.mk 1 1) RIGHT)) =
          __width (self (ant3 (Point.mk 1 1) RIGHT))) as Hsq by reflexivity.
  split; [exact Hnew|]. split; [exact Hsq|].
  exact (square_safe _ _ _ _ _ _ _ 20%nat Hnew Hsq).
Defined.
